(** * PawsClient: a shallow embedding of paws.js / paws-proxy.js

    The two scripts are the same class, [PawsClient], written twice: paws.js
    talks to the service directly, paws-proxy.js routes every request through
    a per-account HTTPS proxy.  Every method of the proxy script takes one
    more argument, [proxy]; with [proxy = undefined] it behaves as the method
    of the plain script.  The embedding follows that: methods take
    [proxy : option string], and the two places where the scripts really
    differ ([validateWalletFile] and [main]) take the [variant].  Console
    texts are those of paws.js; paws-proxy.js prints the same lines in
    Vietnamese.  The texts that only paws-proxy.js has (the proxy check, the
    banner with the address, the count of proxies) are its own, held as the
    bytes of their UTF-8 form.

    Conventions of the embedding
    - JavaScript values that come from JSON (response bodies, token payloads,
      quest records) are [value]s; numbers are integral ([Z]), strings are
      sequences of code units below 256 (Rocq's [string]).  Numbers are
      printed as decimal numerals, which is what JavaScript prints for the
      integers below 10^21 (quest ids, balances and Telegram user ids are
      far below).
    - [this.tokens] is the mapping from the text of a user id to a token, read
      and written at its own entries; a token file whose JSON is not an
      object, and ids that name a property of [Object.prototype], are outside
      the model.
    - An [async] method is a state transformer over the [world]: the fields of
      the client object plus the trace of everything the process did
      (requests, pauses, console lines, prompts, file writes).
    - A computation ends in a returned value, a thrown exception or
      [process.exit]; the endless loop of [main] is run for a given number of
      passes.
    - What the platform decides (the network, the clock, the file system,
      [JSON.parse], the terminal) is read from an [Env]; every theorem holds
      for all environments unless it names one. *)

From Stdlib Require Import ZArith Ascii Lia.
From stdpp Require Import base tactics option list strings pretty gmap.

Local Open Scope Z_scope.
Set Warnings "-register-all".

(** ** JSON values *)

Inductive value : Type :=
| VUndefined
| VNull
| VBool (b : bool)
| VNum (n : Z)
| VStr (s : string)
| VArr (xs : list value)
| VObj (props : list (string * value)).

(** Exceptions: an [Error] object, of which the code only reads [message]. *)
Record exn : Type := JsError { ename : string; message : string }.

Definition TypeError (msg : string) : exn := JsError "TypeError" msg.
Definition SyntaxError (msg : string) : exn := JsError "SyntaxError" msg.

(** How a computation ends. [Exit] is [process.exit(code)]: no [catch]
    intercepts it. [Running] is the run loop of [main], which has no end,
    cut after the number of passes it was given. *)
Inductive res (A : Type) : Type :=
| Ret (a : A)
| Throw (e : exn)
| Exit (code : Z)
| Running.
Arguments Ret {A} a.
Arguments Throw {A} e.
Arguments Exit {A} code.
Arguments Running {A}.

Definition rbind {A B} (r : res A) (k : A -> res B) : res B :=
  match r with
  | Ret a => k a
  | Throw e => Throw e
  | Exit c => Exit c
  | Running => Running
  end.

Declare Scope js_scope.
Delimit Scope js_scope with js.
Notation "'let?' x ':=' c 'in' k" := (rbind c (fun x => k))
  (at level 10, x name, c at level 100, k at level 200) : js_scope.
Local Open Scope js_scope.

(** ** Strings *)

Module Str.

Fixpoint length (s : string) : nat :=
  match s with
  | EmptyString => 0%nat
  | String _ r => S (length r)
  end.

(** [String.prototype.startsWith] *)
Fixpoint startsWith (s p : string) : bool :=
  match p, s with
  | EmptyString, _ => true
  | String a p', String b s' => if decide (a = b) then startsWith s' p' else false
  | String _ _, EmptyString => false
  end.

(** [s.slice(n)] for a start index [n >= 0] *)
Fixpoint slice (n : nat) (s : string) : string :=
  match n, s with
  | O, _ => s
  | S n', String _ r => slice n' r
  | S _, EmptyString => EmptyString
  end.

Fixpoint snoc (s : string) (c : ascii) : string :=
  match s with
  | EmptyString => String c EmptyString
  | String a r => String a (snoc r c)
  end.

(** [s.split(sep)] for a non-empty separator: [cur] is the piece being read,
    [skip] the characters of a separator just matched that are still to be
    passed over. *)
Fixpoint split_go (sep s cur : string) (skip : nat) : list string :=
  match s with
  | EmptyString => [cur]
  | String c r =>
      match skip with
      | S k => split_go sep r cur k
      | O =>
          if startsWith s sep
          then cur :: split_go sep r EmptyString (length sep - 1)
          else split_go sep r (snoc cur c) 0
      end
  end.
Definition split (sep s : string) : list string := split_go sep s EmptyString 0.

Fixpoint contains (c : ascii) (s : string) : bool :=
  match s with
  | EmptyString => false
  | String a r => if decide (a = c) then true else contains c r
  end.

(** [s.replace(/\r/g, '')] *)
Fixpoint remove (c : ascii) (s : string) : string :=
  match s with
  | EmptyString => EmptyString
  | String a r => if decide (a = c) then remove c r else String a (remove c r)
  end.

Definition nonEmpty (s : string) : bool :=
  match s with EmptyString => false | _ => true end.

(** [toLowerCase] on code units below 256: A-Z and the Latin-1 capitals. *)
Definition lowerChar (c : ascii) : ascii :=
  let n := N_of_ascii c in
  if ((65 <=? n) && (n <=? 90))%N then ascii_of_N (n + 32)
  else if ((192 <=? n) && (n <=? 222) && negb (n =? 215))%N then ascii_of_N (n + 32)
  else c.
Fixpoint toLowerCase (s : string) : string :=
  match s with
  | EmptyString => EmptyString
  | String a r => String (lowerChar a) (toLowerCase r)
  end.

Fixpoint join (sep : string) (l : list string) : string :=
  match l with
  | [] => EmptyString
  | [s] => s
  | s :: r => s +:+ sep +:+ join sep r
  end.

End Str.

(** *** [parseInt(s)] with the default radix

    Leading white space is dropped, then an optional sign, then an optional
    [0x]/[0X]; the longest run of digits of the radix is read; no digit at all
    is [NaN] ([None]).  The result is kept as an exact integer: the engine
    rounds it to a double, which changes no integer up to 2^53 and is
    monotone, so comparisons with small constants are those of the exact
    value. *)
Module ParseInt.

(** WhiteSpace and LineTerminator code units below 256 *)
Definition isWhite (c : ascii) : bool :=
  let n := N_of_ascii c in
  ((n =? 9) || (n =? 10) || (n =? 11) || (n =? 12) || (n =? 13) || (n =? 32) || (n =? 160))%N.

Fixpoint trimStart (s : string) : string :=
  match s with
  | String c r => if isWhite c then trimStart r else s
  | EmptyString => EmptyString
  end.

Definition digit (radix : Z) (c : ascii) : option Z :=
  let n := Z.of_N (N_of_ascii c) in
  let d :=
    if (48 <=? n) && (n <=? 57) then Some (n - 48)
    else if (97 <=? n) && (n <=? 122) then Some (n - 87)
    else if (65 <=? n) && (n <=? 90) then Some (n - 55)
    else None in
  match d with
  | Some v => if v <? radix then Some v else None
  | None => None
  end.

(** the digits read so far are [acc]; [seen] tells whether there is one *)
Fixpoint digits (radix : Z) (s : string) (acc : Z) (seen : bool) : option Z :=
  match s with
  | String c r =>
      match digit radix c with
      | Some d => digits radix r (acc * radix + d) true
      | None => if seen then Some acc else None
      end
  | EmptyString => if seen then Some acc else None
  end.

Definition unsigned (s : string) : option Z :=
  match s with
  | String "0" (String "x" r) | String "0" (String "X" r) => digits 16 r 0 false
  | _ => digits 10 s 0 false
  end.

Definition parseInt (s : string) : option Z :=
  match trimStart s with
  | String "-" r => Z.opp <$> unsigned r
  | String "+" r => unsigned r
  | t => unsigned t
  end.

End ParseInt.

(** *** [Buffer.from(s, 'base64')]

    Node's decoder is lenient and never fails on a string: a character outside
    the alphabet is passed over, both the standard and the URL-safe alphabet
    are accepted, and the first [=] ends the input.  Four sextets give three
    bytes; a last group of three gives two bytes, of two gives one byte, and
    a single left-over sextet gives none. *)
Module Base64.

Definition unbase64 (c : ascii) : option N :=
  let n := N_of_ascii c in
  if ((65 <=? n) && (n <=? 90))%N then Some (n - 65)%N
  else if ((97 <=? n) && (n <=? 122))%N then Some (n - 71)%N
  else if ((48 <=? n) && (n <=? 57))%N then Some (n + 4)%N
  else if ((n =? 43) || (n =? 45))%N then Some 62%N
  else if ((n =? 47) || (n =? 95))%N then Some 63%N
  else None.

Fixpoint sextets (s : string) : list N :=
  match s with
  | EmptyString => []
  | String c r =>
      if decide (c = "="%char) then []
      else match unbase64 c with
           | Some v => v :: sextets r
           | None => sextets r
           end
  end.

Definition byte1 (a b : N) : ascii :=
  ascii_of_N (N.lor (N.shiftl (N.land a 63) 2) (N.shiftr (N.land b 48) 4)).
Definition byte2 (b c : N) : ascii :=
  ascii_of_N (N.lor (N.shiftl (N.land b 15) 4) (N.shiftr (N.land c 60) 2)).
Definition byte3 (c d : N) : ascii :=
  ascii_of_N (N.lor (N.shiftl (N.land c 3) 6) (N.land d 63)).

Fixpoint groups (l : list N) : string :=
  match l with
  | a :: b :: c :: d :: r =>
      String (byte1 a b) (String (byte2 b c) (String (byte3 c d) (groups r)))
  | [a; b; c] => String (byte1 a b) (String (byte2 b c) EmptyString)
  | [a; b] => String (byte1 a b) EmptyString
  | _ => EmptyString
  end.

Definition decode (s : string) : string := groups (sextets s).


End Base64.

(** ** Operations on values *)

(** ToBoolean *)
Definition truthy (v : value) : bool :=
  match v with
  | VUndefined | VNull => false
  | VBool b => b
  | VNum n => negb (n =? 0)
  | VStr s => Str.nonEmpty s
  | VArr _ | VObj _ => true
  end.

Fixpoint assoc (k : string) (props : list (string * value)) : option value :=
  match props with
  | [] => None
  | (k', v) :: r => if decide (k' = k) then Some v else assoc k r
  end.

(** [v.k] for the property names the scripts read (none of them is inherited
    from a prototype): own properties of an object, [length] of an array or a
    string, [undefined] otherwise; reading a property of [undefined] or
    [null] throws. *)
Definition get_prop (v : value) (k : string) : res value :=
  match v with
  | VUndefined =>
      Throw (TypeError ("Cannot read properties of undefined (reading '" +:+ k +:+ "')"))
  | VNull =>
      Throw (TypeError ("Cannot read properties of null (reading '" +:+ k +:+ "')"))
  | VObj props => Ret (default VUndefined (assoc k props))
  | VArr xs =>
      Ret (if decide (k = "length") then VNum (Z.of_nat (List.length xs)) else VUndefined)
  | VStr s =>
      Ret (if decide (k = "length") then VNum (Z.of_nat (Str.length s)) else VUndefined)
  | VBool _ | VNum _ => Ret VUndefined
  end.

(** [v[i]] for a numeric literal [i] *)
Definition get_index (v : value) (i : nat) : res value :=
  match v with
  | VUndefined =>
      Throw (TypeError ("Cannot read properties of undefined (reading '" +:+ pretty i +:+ "')"))
  | VNull =>
      Throw (TypeError ("Cannot read properties of null (reading '" +:+ pretty i +:+ "')"))
  | VObj props => Ret (default VUndefined (assoc (pretty i) props))
  | VArr xs => Ret (default VUndefined (xs !! i))
  | VStr s =>
      Ret (match Str.slice i s with
           | String c _ => VStr (String c EmptyString)
           | EmptyString => VUndefined
           end)
  | VBool _ | VNum _ => Ret VUndefined
  end.

(** [const { k, ... } = v]: reading the first property [k] of [undefined] or
    [null] throws; [source] is the text of the expression destructured. *)
Definition destructure (v : value) (k source : string) : res value :=
  match v with
  | VUndefined =>
      Throw (TypeError ("Cannot destructure property '" +:+ k +:+ "' of '" +:+ source
                        +:+ "' as it is undefined."))
  | VNull =>
      Throw (TypeError ("Cannot destructure property '" +:+ k +:+ "' of '" +:+ source
                        +:+ "' as it is null."))
  | _ => get_prop v k
  end.

(** ToString, as a template literal applies it: a number as its decimal
    numeral *)
Fixpoint ToString (v : value) : string :=
  match v with
  | VUndefined => "undefined"
  | VNull => "null"
  | VBool true => "true"
  | VBool false => "false"
  | VNum n => pretty n
  | VStr s => s
  | VArr xs =>
      Str.join ","
        (map (fun x => match x with VUndefined | VNull => EmptyString | _ => ToString x end) xs)
  | VObj _ => "[object Object]"
  end.

(** [x === true], [x === false], [x === 'literal'], [x === 200]: strict
    equality with a primitive literal *)
Definition is_true (v : value) : bool :=
  match v with VBool true => true | _ => false end.
Definition is_false (v : value) : bool :=
  match v with VBool false => true | _ => false end.
Definition is_str (lit : string) (v : value) : bool :=
  match v with VStr s => bool_decide (s = lit) | _ => false end.

(** [x !== undefined] *)
Definition is_defined (v : value) : bool :=
  match v with VUndefined => false | _ => true end.

(** [v.toString()] on a JSON value *)
Definition toString_method (v : value) : res string :=
  match v with
  | VUndefined =>
      Throw (TypeError "Cannot read properties of undefined (reading 'toString')")
  | VNull =>
      Throw (TypeError "Cannot read properties of null (reading 'toString')")
  | _ => Ret (ToString v)
  end.

(** [{ success: true }], [{ success: false, error: msg }] *)
Definition success_only : value := VObj [("success", VBool true)].
Definition failure (msg : string) : value :=
  VObj [("success", VBool false); ("error", VStr msg)].

(** [xs.filter(f)] where the callback may throw *)
Fixpoint filterM (f : value -> res bool) (xs : list value) : res (list value) :=
  match xs with
  | [] => Ret []
  | x :: r =>
      let? keep := f x in
      let? r' := filterM f r in
      Ret (if keep then x :: r' else r')
  end.

Definition array_filter (v : value) (f : value -> res bool) : res value :=
  match v with
  | VArr xs => let? ys := filterM f xs in Ret (VArr ys)
  | VUndefined =>
      Throw (TypeError "Cannot read properties of undefined (reading 'filter')")
  | VNull =>
      Throw (TypeError "Cannot read properties of null (reading 'filter')")
  | _ => Throw (TypeError "response.data.data.filter is not a function")
  end.

(** [v.startsWith(p)] and [v.slice(n)]: methods of strings only *)
Definition startsWith_method (v : value) (p : string) : res bool :=
  match v with
  | VStr s => Ret (Str.startsWith s p)
  | VUndefined =>
      Throw (TypeError "Cannot read properties of undefined (reading 'startsWith')")
  | VNull =>
      Throw (TypeError "Cannot read properties of null (reading 'startsWith')")
  | _ => Throw (TypeError "quest.code.startsWith is not a function")
  end.

Definition slice_method (v : value) (n : nat) : res value :=
  match v with
  | VStr s => Ret (VStr (Str.slice n s))
  | VArr xs => Ret (VArr (drop n xs))
  | VUndefined =>
      Throw (TypeError "Cannot read properties of undefined (reading 'slice')")
  | VNull =>
      Throw (TypeError "Cannot read properties of null (reading 'slice')")
  | _ => Throw (TypeError "quest.code.slice is not a function")
  end.

(** [parseInt(v)]: of the text of [v] *)
Definition parseInt (v : value) : option Z := ParseInt.parseInt (ToString v).

(** [n <= 6] where [n] is the result of [parseInt]: false for [NaN] *)
Definition at_most (bound : Z) (n : option Z) : bool :=
  match n with
  | Some k => k <=? bound
  | None => false
  end.

(** The callback of [getQuestsList]: [quest => !quest.progress.claimed] *)
Definition unclaimed (quest : value) : res bool :=
  let? progress := get_prop quest "progress" in
  let? claimed := get_prop progress "claimed" in
  Ret (negb (truthy claimed)).

(** The callback of [getChristmasQuests]:
    [quest.code.startsWith('christmas') && parseInt(quest.code.slice(9)) <= 6
     && !quest.progress.claimed && quest.progress.status !== 'finished']
    with the short circuit of [&&]. *)
Definition christmasFilter (quest : value) : res bool :=
  let? code := get_prop quest "code" in
  let? starts := startsWith_method code "christmas" in
  if negb starts then Ret false else
  let? code := get_prop quest "code" in
  let? suffix := slice_method code 9 in
  if negb (at_most 6 (parseInt suffix)) then Ret false else
  let? progress := get_prop quest "progress" in
  let? claimed := get_prop progress "claimed" in
  if truthy claimed then Ret false else
  let? progress := get_prop quest "progress" in
  let? status := get_prop progress "status" in
  Ret (negb (is_str "finished" status)).

(** [new HttpsProxyAgent(proxy)] *)
Record agent : Type := HttpsProxyAgent { agent_proxy : string }.

(** An axios request config. *)
Record request : Type := Request {
  method : string;
  url : string;
  headers : list (string * string);
  data : value;
  httpsAgent : option agent;
  timeout : option Z
}.

(** An axios response: the HTTP status and the parsed body ([response.data]). *)
Record response : Type := Response {
  status : Z;
  body : value
}.

(** The config once [config.httpsAgent] is assigned, if it is. *)
Definition with_agent (config : request) (a : option agent) : request :=
  match a with
  | Some _ =>
      Request (method config) (url config) (headers config) (data config) a (timeout config)
  | None => config
  end.

(** A quest record as the seasonal list carries it: a string [code] and a
    [progress] that is neither [undefined] nor [null]. *)
Definition questRecord (quest : value) : Prop :=
  exists code progress,
    get_prop quest "code" = Ret (VStr code)
    /\ get_prop quest "progress" = Ret progress
    /\ progress <> VUndefined /\ progress <> VNull.

(** The seasonal quests still to do: the code starts with [christmas], the
    number that [parseInt] reads after these nine characters is at most 6,
    the progress is not claimed and its status is not [finished]. *)
Definition seasonal (quest : value) : Prop :=
  exists code progress claimed status n,
    get_prop quest "code" = Ret (VStr code)
    /\ Str.startsWith code "christmas" = true
    /\ ParseInt.parseInt (Str.slice 9 code) = Some n /\ n <= 6
    /\ get_prop quest "progress" = Ret progress
    /\ get_prop progress "claimed" = Ret claimed /\ truthy claimed = false
    /\ get_prop progress "status" = Ret status /\ status <> VStr "finished".

(** [status] and [data] of what [makeRequest] returned *)
Definition status_of (r : option response) : res Z :=
  match r with
  | Some r => Ret (status r)
  | None => Throw (TypeError "Cannot read properties of undefined (reading 'status')")
  end.
Definition data_of (r : option response) : res value :=
  match r with
  | Some r => Ret (body r)
  | None => Throw (TypeError "Cannot read properties of undefined (reading 'data')")
  end.

(** [response.status === code && response.data.success] *)
Definition status_and_success (r : option response) (code : Z) : res bool :=
  let? st := status_of r in
  if negb (st =? code) then Ret false else
  let? d := data_of r in
  let? ok := get_prop d "success" in
  Ret (truthy ok).

(** [this.headers] *)
Definition default_headers : list (string * string) :=
  [("Accept", "application/json");
   ("Accept-Encoding", "gzip, deflate, br");
   ("Accept-Language", "vi-VN,vi;q=0.9,fr-FR;q=0.8,fr;q=0.7,en-US;q=0.6,en;q=0.5");
   ("Content-Type", "application/json");
   ("Origin", "https://app.paws.community");
   ("Referer", "https://app.paws.community/");
   ("Sec-Fetch-Dest", "empty");
   ("Sec-Fetch-Mode", "cors");
   ("Sec-Fetch-Site", "same-site");
   ("User-Agent", "Mozilla/5.0 (iPhone; CPU iPhone OS 13_2_3 like Mac OS X) AppleWebKit/605.1.15 (KHTML, like Gecko) Version/13.0.3 Mobile/15E148 Safari/604.1")].

(** [{ ...this.headers, "Authorization": `Bearer ${token}` }] *)
Definition bearer_headers (token : value) : list (string * string) :=
  default_headers ++ [("Authorization", "Bearer " +:+ ToString token)].

(** The requests of the quest engine. *)
Definition questsListRequest (token : value) : request :=
  Request "get" "https://api.paws.community/v1/quests/list"
    (bearer_headers token) VUndefined None None.
Definition christmasListRequest (token : value) : request :=
  Request "get" "https://api.paws.community/v1/quests/list?type=christmas"
    (bearer_headers token) VUndefined None None.
Definition completedRequest (token questId : value) : request :=
  Request "post" "https://api.paws.community/v1/quests/completed"
    (bearer_headers token) (VObj [("questId", questId)]) None None.
Definition claimRequest (token questId : value) : request :=
  Request "post" "https://api.paws.community/v1/quests/claim"
    (bearer_headers token) (VObj [("questId", questId)]) None None.

(** [{ title: `Quest ${questId}`, rewards: [{ amount: 0 }] }] *)
Definition placeholderQuest (questId : value) : value :=
  VObj [("title", VStr ("Quest " +:+ ToString questId));
        ("rewards", VArr [VObj [("amount", VNum 0)]])].

Inductive variant : Type :=
| Plain     (* paws.js *)
| Proxy.    (* paws-proxy.js *)

(** ** The process and its environment *)

(** What a call into the platform answers. *)
Inductive answer (A : Type) : Type :=
| Returns (a : A)
| Throws (e : exn).
Arguments Returns {A} a.
Arguments Throws {A} e.

Inductive event : Type :=
| EAxios (config : request)              (* axios(config) was called *)
| ESleep (ms : Z)                        (* setTimeout(resolve, ms) was awaited *)
| EConsole (line : string)               (* console.log(line) *)
| EStdout (text : string)                (* process.stdout.write(text) *)
| ECursorTo (x : Z)                      (* readline.cursorTo(process.stdout, x) *)
| EWriteFile (path content : string)     (* fs.writeFileSync(path, content) succeeded *)
| EQuestion (query reply : string).      (* rl.question(query, ...) was answered *)

(** The fields of the client object and the trace of the process so far, the
    oldest event first. *)
Record world : Type := World {
  trace : list event;
  tokens : gmap string value;
  wallets : list string;
  proxies : list string
}.

Definition requests (t : list event) : list request :=
  omap (fun e => match e with EAxios c => Some c | _ => None end) t.

(** Requests and pauses, in the order they happened. *)
Definition traffic (t : list event) : list event :=
  omap (fun e => match e with EAxios _ | ESleep _ => Some e | _ => None end) t.

(** The platform. A call that depends on when it is made takes the number of
    events before it ([axios]: the number of requests before it). *)
Record Env : Type := {
  axios : nat -> request -> answer response;
  newHttpsProxyAgent : string -> answer agent;
  (* Math.floor(DateTime.now().toSeconds()) *)
  nowSeconds : nat -> Z;
  (* DateTime.fromSeconds(t).toLocal().toFormat('yyyy-MM-dd HH:mm:ss') *)
  formatLocal : Z -> string;
  (* new Date().toLocaleTimeString() *)
  toLocaleTimeString : nat -> string;
  (* the colors package: style name, text *)
  paint : string -> string -> string;
  (* buf.toString(): the bytes read as UTF-8 *)
  Buffer_toString : string -> string;
  (* JSON.parse of a text; None: SyntaxError *)
  JSON_parse : string -> option value;
  (* JSON.parse of token.json, which holds the object that saveToken wrote:
     the entries of that object; None: SyntaxError *)
  JSON_parse_tokens : string -> option (gmap string value);
  (* JSON.stringify(tokens, null, 2) *)
  JSON_stringify : gmap string value -> string;
  (* decodeURIComponent; None: URIError *)
  decodeURIComponent : string -> option string;
  existsSync : string -> bool;
  readFileSync : string -> answer string;
  (* fs.writeFileSync(path, content): None when it succeeds *)
  writeFileSync : nat -> string -> string -> option exn;
  (* what the user types at a prompt *)
  question : nat -> string -> string
}.

(** ** Computations *)

Definition M (A : Type) : Type := world -> res A * world.

Definition ret {A} (a : A) : M A := fun w => (Ret a, w).
Definition throw {A} (e : exn) : M A := fun w => (Throw e, w).
Definition process_exit {A} (code : Z) : M A := fun w => (Exit code, w).
Definition lift {A} (r : res A) : M A := fun w => (r, w).

Definition bind {A B} (m : M A) (k : A -> M B) : M B :=
  fun w =>
    match m w with
    | (Ret a, w') => k a w'
    | (Throw e, w') => (Throw e, w')
    | (Exit c, w') => (Exit c, w')
    | (Running, w') => (Running, w')
    end.

(** [try { m } catch (error) { h error }] *)
Definition try_catch {A} (m : M A) (h : exn -> M A) : M A :=
  fun w =>
    match m w with
    | (Throw e, w') => h e w'
    | r => r
    end.

Notation "'let!' x ':=' c 'in' k" := (bind c (fun x => k))
  (at level 10, x name, c at level 100, k at level 200) : js_scope.
Notation "c ';;;' k" := (bind c (fun _ => k))
  (at level 100, k at level 200, right associativity) : js_scope.

(** The world once more events have happened. *)
Definition after (w : world) (evs : list event) : world :=
  World (trace w ++ evs) (tokens w) (wallets w) (proxies w).

Definition emit (e : event) : M unit := fun w => (Ret tt, after w [e]).

Definition steps : M nat := fun w => (Ret (List.length (trace w)), w).

Definition of_answer {A} (a : answer A) : M A :=
  match a with
  | Returns x => ret x
  | Throws e => throw e
  end.

(** [await new Promise(resolve => setTimeout(resolve, ms))] *)
Definition sleep (ms : Z) : M unit := emit (ESleep ms).

Section Client.

Variable E : Env.

(** [await axios(config)] *)
Definition call_axios (config : request) : M response :=
  fun w =>
    let n := List.length (requests (trace w)) in
    (emit (EAxios config) ;;; of_answer (axios E n config)) w.

Definition console_log (line : string) : M unit := emit (EConsole line).

(** [log(msg, type = 'info')] *)
Definition log (msg : string) (type : string) : M unit :=
  let! n := steps in
  let timestamp := toLocaleTimeString E n in
  if decide (type = "success") then
    console_log (paint E "green" ("[" +:+ timestamp +:+ "] [*] " +:+ msg))
  else if decide (type = "custom") then
    console_log (paint E "magenta" ("[" +:+ timestamp +:+ "] [*] " +:+ msg))
  else if decide (type = "error") then
    console_log (paint E "red" ("[" +:+ timestamp +:+ "] [!] " +:+ msg))
  else if decide (type = "warning") then
    console_log (paint E "yellow" ("[" +:+ timestamp +:+ "] [*] " +:+ msg))
  else
    console_log (paint E "blue" ("[" +:+ timestamp +:+ "] [*] " +:+ msg)).

(** *** makeRequest

    [if (proxy) config.httpsAgent = new HttpsProxyAgent(proxy)]: only the
    proxy script has the line; the plain script is the case [proxy = None]. *)
Definition proxyAgent (proxy : option string) : answer (option agent) :=
  match proxy with
  | Some p =>
      if Str.nonEmpty p then
        match newHttpsProxyAgent E p with
        | Returns a => Returns (Some a)
        | Throws e => Throws e
        end
      else Returns None
  | None => Returns None
  end.

Definition set_agent (config : request) (proxy : option string) : M request :=
  let! a := of_answer (proxyAgent proxy) in
  ret (with_agent config a).

(** The [try] block of [makeRequest]. *)
Definition attempt (config : request) (proxy : option string) : M (option response) :=
  let! config' := set_agent config proxy in
  let! response := call_axios config' in
  ret (Some response).

(** The loop [while (attempt <= maxRetries)]: [left] counts the turns that
    remain, [left = maxRetries + 1 - turn], where [turn] is the variable
    [attempt] of the script.  When none remains the
    method ends without a [return]: [None] is [undefined].  The message
    prints [retryDelay/1000]; the quotient is exact for the delays in use. *)
Fixpoint makeRequest_loop (left : nat) (config : request) (proxy : option string)
    (maxRetries : nat) (retryDelay : Z) (turn : nat) : M (option response) :=
  match left with
  | O => ret None
  | S left' =>
      try_catch (attempt config proxy)
        (fun error =>
           if decide (turn = maxRetries) then throw error
           else
             log ("The first try " +:+ pretty turn +:+ "/" +:+ pretty maxRetries
                  +:+ " failure: " +:+ message error +:+ ". Try again later "
                  +:+ pretty (retryDelay / 1000) +:+ "s...") "warning" ;;;
             sleep retryDelay ;;;
             makeRequest_loop left' config proxy maxRetries retryDelay (S turn))
  end.

Definition makeRequest_with (config : request) (proxy : option string)
    (maxRetries : nat) (retryDelay : Z) : M (option response) :=
  makeRequest_loop maxRetries config proxy maxRetries retryDelay 1.

(** [makeRequest(config, proxy)]: every caller leaves the defaults
    [maxRetries = 3], [retryDelay = 5000]. *)
Definition makeRequest (config : request) (proxy : option string) : M (option response) :=
  makeRequest_with config proxy 3 5000.


(** *** Files read at start-up *)

(** [text.replace(/\r/g, '').split('\n').filter(Boolean)] *)
Definition lines (text : string) : list string :=
  List.filter Str.nonEmpty
    (Str.split (String "010" EmptyString) (Str.remove "013" text)).

Definition read_file (path : string) : M string :=
  of_answer (readFileSync E path).

Definition loadWallets : M (list string) :=
  try_catch
    (if existsSync E "wallet.txt" then
       let! text := read_file "wallet.txt" in
       ret (lines text)
     else ret [])
    (fun error =>
       log ("Error reading file wallet: " +:+ message error) "error" ;;;
       ret []).

Definition loadProxies : M (list string) :=
  try_catch
    (if existsSync E "proxy.txt" then
       let! text := read_file "proxy.txt" in
       ret (lines text)
     else ret [])
    (fun error =>
       log ("Error reading file proxy: " +:+ message error) "error" ;;;
       ret []).

(** The token file is taken to hold an object, as [saveToken] writes it. *)
Definition loadTokens : M (gmap string value) :=
  try_catch
    (if existsSync E "token.json" then
       let! text := read_file "token.json" in
       match JSON_parse_tokens E text with
       | Some m => ret m
       | None => throw (SyntaxError "Unexpected token in JSON")
       end
     else ret ∅)
    (fun error =>
       log ("Error reading file token: " +:+ message error) "error" ;;;
       ret ∅).

(** *** saveToken *)

(** [this.tokens[userId] = token] *)
Definition set_token (userId : value) (token : value) : M unit :=
  fun w =>
    (Ret tt, World (trace w) (<[ToString userId := token]> (tokens w)) (wallets w) (proxies w)).

(** [this.tokens[userId]] *)
Definition get_token (userId : value) : M value :=
  fun w => (Ret (default VUndefined (tokens w !! ToString userId)), w).

(** [fs.writeFileSync(this.tokenFile, JSON.stringify(this.tokens, null, 2))] *)
Definition write_tokens : M unit :=
  fun w =>
    let content := JSON_stringify E (tokens w) in
    match writeFileSync E (List.length (trace w)) "token.json" content with
    | None => emit (EWriteFile "token.json" content) w
    | Some error => (Throw error, w)
    end.

Definition saveToken (userId : value) (token : value) : M unit :=
  set_token userId token ;;;
  try_catch
    (write_tokens ;;;
     log ("Saved tokens for user " +:+ ToString userId) "success")
    (fun error =>
       log ("Error saving token: " +:+ message error) "error").


(** *** isExpired *)

(** [DateTime.fromSeconds(exp).toLocal().toFormat('yyyy-MM-dd HH:mm:ss')]:
    [fromSeconds] throws unless [exp] is a number. *)
Definition formatExpiry (exp : value) : res string :=
  match exp with
  | VNum t => Ret (formatLocal E t)
  | _ => Throw (JsError "InvalidArgumentError" "fromSeconds requires a numerical input")
  end.

(** [now > exp] once [exp] is known to be a number *)
Definition later_than (now : Z) (exp : value) : bool :=
  match exp with
  | VNum t => t <? now
  | _ => false
  end.

(** [Buffer.from(payload, 'base64').toString()], where [payload] is the
    second element of [token.split('.')]: [undefined] when the token has no
    dot, and [Buffer.from(undefined, 'base64')] throws. *)
Definition decodePayload (payload : option string) : res string :=
  match payload with
  | Some p => Ret (Buffer_toString E (Base64.decode p))
  | None =>
      Throw (TypeError ("The first argument must be of type string or an instance of "
                        +:+ "Buffer, ArrayBuffer, or Array or an Array-like Object. "
                        +:+ "Received undefined"))
  end.

Definition JSON_parse_or_throw (text : string) : res value :=
  match JSON_parse E text with
  | Some v => Ret v
  | None => Throw (SyntaxError "Unexpected token in JSON")
  end.

Definition now : M Z := fun w => (Ret (nowSeconds E (List.length (trace w))), w).

Definition isExpired (token : value) : M bool :=
  match token with
  | VStr token =>
      let payload := Str.split "." token !! 1%nat in
      let! decodedPayload := lift (decodePayload payload) in
      try_catch
        (let! parsedPayload := lift (JSON_parse_or_throw decodedPayload) in
         let! now := now in
         let! exp := lift (get_prop parsedPayload "exp") in
         if truthy exp then
           let! expirationDate := lift (formatExpiry exp) in
           log (paint E "cyan" ("Token expires on: " +:+ expirationDate)) "info" ;;;
           let isExpired := later_than now exp in
           log (paint E "cyan"
                  ("Has the token expired? "
                   +:+ (if isExpired then "Yes, you need to replace the token"
                        else "Not yet..go for it"))) "info" ;;;
           ret isExpired
         else
           log "Perpetual Token Unreadable Expiry Time" "warning" ;;;
           ret false)
        (fun error =>
           log ("Error: " +:+ message error) "error" ;;;
           ret true)
  | _ => throw (TypeError "token.split is not a function")
  end.


(** *** Session calls *)

Definition linkWallet (token wallet : value) (proxy : option string) : M value :=
  try_catch
    (let! response :=
       makeRequest
         (Request "post" "https://api.paws.community/v1/user/wallet"
            (bearer_headers token) (VObj [("wallet", wallet)]) None None) proxy in
     let! ok := lift (status_and_success response 201) in
     if ok then ret success_only
     else ret (failure "Failed to link wallet"))
    (fun error => ret (failure (message error))).

Definition authenticate (initData : value) (proxy : option string) : M value :=
  try_catch
    (let! response :=
       makeRequest
         (Request "post" "https://api.paws.community/v1/user/auth" default_headers
            (VObj [("data", initData); ("referralCode", VStr EmptyString)]) None None)
         proxy in
     let! ok := lift (status_and_success response 201) in
     if ok then
       lift
         (let? d := data_of response in
          let? pair := get_prop d "data" in
          let? token := get_index pair 0 in
          let? userData := get_index pair 1 in
          let? gameData := get_prop userData "gameData" in
          let? balance := get_prop gameData "balance" in
          let? user := get_prop userData "userData" in
          let? username := get_prop user "username" in
          let? firstname := get_prop user "firstname" in
          let? wallet := get_prop user "wallet" in
          Ret (VObj [("success", VBool true); ("token", token); ("balance", balance);
                     ("username", username); ("firstname", firstname);
                     ("wallet", wallet)]))
     else ret (failure "Authentication failed"))
    (fun error => ret (failure (message error))).

Definition getUserInfo (token : value) (proxy : option string) : M value :=
  try_catch
    (let! response :=
       makeRequest
         (Request "get" "https://api.paws.community/v1/user"
            (bearer_headers token) VUndefined None None) proxy in
     let! ok := lift (status_and_success response 200) in
     if ok then
       lift
         (let? d := data_of response in
          let? userData := get_prop d "data" in
          let? gameData := get_prop userData "gameData" in
          let? balance := get_prop gameData "balance" in
          let? user := get_prop userData "userData" in
          let? wallet := get_prop user "wallet" in
          Ret (VObj [("success", VBool true); ("balance", balance); ("wallet", wallet)]))
     else ret (failure "Failed to get user info"))
    (fun error => ret (failure (message error))).

(** [validateWalletFile]: the proxy script adds the second comparison. *)
Definition validateWalletFile (v : variant) : M bool :=
  let! text := read_file "data.txt" in
  let data := lines text in
  fun w =>
    if negb (bool_decide (List.length (wallets w) = List.length data)) then
      (log ("Number of wallets (" +:+ pretty (List.length (wallets w)) +:+ ") and data ("
            +:+ pretty (List.length data) +:+ ") do not match!") "error" ;;;
       ret false) w
    else
      match v with
      | Plain => ret true w
      | Proxy =>
          if negb (bool_decide (List.length (proxies w) = List.length data)) then
            (log ("Số lượng proxy (" +:+ pretty (List.length (proxies w))
                  +:+ ") và data (" +:+ pretty (List.length data)
                  +:+ ") không khớp nhau!") "error" ;;;
             ret false) w
          else ret true w
      end.

(** *** The quest engine *)

Definition getQuestsList (token : value) (proxy : option string) : M value :=
  try_catch
    (let! response := makeRequest (questsListRequest token) proxy in
     let! ok := lift (status_and_success response 200) in
     if ok then
       lift
         (let? d := data_of response in
          let? quests := get_prop d "data" in
          let? kept := array_filter quests unclaimed in
          Ret (VObj [("success", VBool true); ("data", kept)]))
     else ret (failure "Failed to get quests list"))
    (fun error => ret (failure (message error))).

Definition claimQuest (token questId questData : value) (proxy : option string) : M value :=
  try_catch
    (let! response := makeRequest (claimRequest token questId) proxy in
     match response with
     | Some _ =>
         let! rewards := lift (get_prop questData "rewards") in
         let! first := lift (get_index rewards 0) in
         let! reward := lift (get_prop first "amount") in
         let! title := lift (get_prop questData "title") in
         log ("Do the task " +:+ ToString title +:+ " success | reward : "
              +:+ ToString reward) "success" ;;;
         ret success_only
     | None => ret (failure "Failed to claim quest reward")
     end)
    (fun error => ret (failure (message error))).

(** After a 200/201 answer that is not a success the method ends without a
    [return]: the caller receives [undefined].  The claim with the
    placeholder is called with three arguments in both scripts: in the proxy
    script its [proxy] is [undefined], and its requests go out without the
    proxy agent. *)
Definition completeQuest (token questId : value) (proxy : option string) : M value :=
  try_catch
    (let! response := makeRequest (completedRequest token questId) proxy in
     let! statusCode := lift (status_of response) in
     let! d := lift (data_of response) in
     let! success := lift (destructure d "success" "response.data") in
     let! data := lift (get_prop d "data") in
     if (statusCode =? 200) || (statusCode =? 201) then
       if truthy success then
         ret (VObj [("success", VBool true); ("data", data)])
       else if is_true data then
         log ("Quest " +:+ ToString questId +:+ " not completed, in progress claim...")
           "info" ;;;
         claimQuest token questId (placeholderQuest questId) None ;;;
         ret VUndefined
       else if is_false data then
         log ("Not qualified to complete the mission " +:+ ToString questId) "warning" ;;;
         ret VUndefined
       else ret VUndefined
     else ret (failure "Unexpected response status"))
    (fun error => ret (failure (message error))).

Fixpoint forEach {A} (xs : list A) (body : A -> M unit) : M unit :=
  match xs with
  | [] => ret tt
  | x :: r => body x ;;; forEach r body
  end.

(** [for (const x of v)] *)
Definition for_of (v : value) (body : value -> M unit) : M unit :=
  match v with
  | VArr xs => forEach xs body
  | _ => throw (TypeError "object is not iterable")
  end.

(** The body of the loop of [processQuests]; [continue] ends it early. *)
Definition processQuest (token : value) (proxy : option string) (quest : value) : M unit :=
  let! title := lift (get_prop quest "title") in
  log ("Processing task: " +:+ ToString title) "info" ;;;
  let! questId := lift (get_prop quest "_id") in
  let! completeResult := completeQuest token questId proxy in
  let! completed := lift (get_prop completeResult "success") in
  if negb (truthy completed) then
    let! title := lift (get_prop quest "title") in
    let! error := lift (get_prop completeResult "error") in
    log ("Error completing task " +:+ ToString title +:+ ": " +:+ ToString error) "error"
  else
    let! questId := lift (get_prop quest "_id") in
    let! claimResult := claimQuest token questId quest proxy in
    let! claimed := lift (get_prop claimResult "success") in
    if negb (truthy claimed) then
      let! title := lift (get_prop quest "title") in
      let! error := lift (get_prop claimResult "error") in
      log ("Error when receiving quest reward " +:+ ToString title +:+ ": "
           +:+ ToString error) "error"
    else sleep 2000.

Definition processQuests (token : value) (proxy : option string) : M unit :=
  try_catch
    (let! questsResult := getQuestsList token proxy in
     let! ok := lift (get_prop questsResult "success") in
     if negb (truthy ok) then
       let! error := lift (get_prop questsResult "error") in
       log ("Error while getting task list: " +:+ ToString error) "error"
     else
       let! unclaimedQuests := lift (get_prop questsResult "data") in
       for_of unclaimedQuests (processQuest token proxy))
    (fun error =>
       log ("Error while processing the task: " +:+ message error) "error").

Definition getChristmasQuests (token : value) (proxy : option string) : M value :=
  try_catch
    (let! response := makeRequest (christmasListRequest token) proxy in
     let! ok := lift (status_and_success response 200) in
     if ok then
       lift
         (let? d := data_of response in
          let? quests := get_prop d "data" in
          let? kept := array_filter quests christmasFilter in
          Ret (VObj [("success", VBool true); ("data", kept)]))
     else ret (failure "Failed to get Christmas quests list"))
    (fun error => ret (failure (message error))).

Definition processChristmasQuest (token : value) (proxy : option string) (quest : value)
    : M unit :=
  let! title := lift (get_prop quest "title") in
  log ("Processing Christmas quest: " +:+ ToString title) "info" ;;;
  let! questId := lift (get_prop quest "_id") in
  let! completeResult := makeRequest (completedRequest token questId) proxy in
  let! statusCode := lift (status_of completeResult) in
  (if (statusCode =? 200) || (statusCode =? 201) then
     let! questId := lift (get_prop quest "_id") in
     let! claimResult := makeRequest (claimRequest token questId) proxy in
     match claimResult with
     | Some r =>
         let! ok := lift (get_prop (body r) "success") in
         if truthy ok then
           let! payload := lift (get_prop (body r) "data") in
           if truthy payload then
             let! amount := lift (get_prop payload "amount") in
             if is_defined amount then
               log ("Claim Christmas successfully, received " +:+ ToString amount
                    +:+ " PAWS") "success"
             else ret tt
           else ret tt
         else ret tt
     | None => ret tt
     end
   else ret tt) ;;;
  sleep 3000.

Definition processChristmasQuests (token : value) (proxy : option string) : M unit :=
  try_catch
    (let! questsResult := getChristmasQuests token proxy in
     let! ok := lift (get_prop questsResult "success") in
     if negb (truthy ok) then
       let! error := lift (get_prop questsResult "error") in
       log ("Error when getting Christmas quest list: " +:+ ToString error) "error"
     else
       let! christmasQuests := lift (get_prop questsResult "data") in
       for_of christmasQuests (processChristmasQuest token proxy))
    (fun error =>
       log ("Error while processing Christmas quest: " +:+ message error) "error").


(** *** The run loop *)

(** [askQuestion(query)] *)
Definition askQuestion (query : string) : M string :=
  fun w =>
    let reply := question E (List.length (trace w)) query in
    (emit (EQuestion query reply) ;;; ret reply) w.

(** [for (let i = seconds; i >= 0; i--)] of [countdown] *)
Fixpoint countdown_from (i : nat) : M unit :=
  emit (ECursorTo 0) ;;;
  emit (EStdout ("===== Wait " +:+ pretty i +:+ " seconds to continue loop =====")) ;;;
  sleep 1000 ;;;
  match i with
  | O => ret tt
  | S j => countdown_from j
  end.

Definition countdown (seconds : nat) : M unit :=
  countdown_from seconds ;;;
  log EmptyString "info".

(** [checkProxyIP(proxy)], of the proxy script *)
Definition checkProxyIP (proxy : option string) : M value :=
  try_catch
    (let! proxyAgent :=
       match proxy with
       | Some p => of_answer (newHttpsProxyAgent E p)
       | None => throw (TypeError "Invalid URL")
       end in
     let! response :=
       call_axios (Request "get" "https://api.ipify.org?format=json" [] VUndefined
                     (Some proxyAgent) (Some 10000)) in
     if status response =? 200 then lift (get_prop (body response) "ip")
     else throw (JsError "Error" ("Không thể kiểm tra IP của proxy. Status code: "
                                  +:+ pretty (status response))))
    (fun error =>
       throw (JsError "Error" ("Lỗi khi kiểm tra IP của proxy: " +:+ message error))).

(** [v.green], [v.cyan]: the colors package styles strings; any other
    value has no such property. *)
Definition styled (v : value) (style : string) : res value :=
  match v with
  | VStr s => Ret (VStr (paint E style s))
  | _ => get_prop v style
  end.

(** [JSON.parse(decodeURIComponent(initData.split('user=')[1].split('&')[0]))] *)
Definition parseUser (initData : string) : res value :=
  match Str.split "user=" initData !! 1%nat with
  | None => Throw (TypeError "Cannot read properties of undefined (reading 'split')")
  | Some rest =>
      match decodeURIComponent E (default EmptyString (head (Str.split "&" rest))) with
      | None => Throw (JsError "URIError" "URI malformed")
      | Some text => JSON_parse_or_throw text
      end
  end.

(** The wallet is linked when the server reports none. *)
Definition ensureWallet (wallet userToken walletAddress : value) (proxy : option string)
    : M unit :=
  if truthy wallet then
    log ("Account linked to wallet: " +:+ ToString wallet) "success"
  else
    log "The account has not linked wallet. Proceed to link..." "warning" ;;;
    let! linkResult := linkWallet userToken walletAddress proxy in
    let! linked := lift (get_prop linkResult "success") in
    if truthy linked then
      log ("Wallet linked successfully: " +:+ ToString walletAddress) "success"
    else
      let! error := lift (get_prop linkResult "error") in
      log ("Error linking wallet: " +:+ ToString error) "error".

(** [`Balance: ${result.balance.toString().magenta}`] *)
Definition logBalance (result : value) : M unit :=
  let! balance := lift (get_prop result "balance") in
  let! text := lift (toString_method balance) in
  log ("Balance: " +:+ paint E "magenta" text) "custom".

(** The session of one account: the token to go on with, or [None] where
    the loop says [continue]. *)
Definition session (initData : string) (userId walletAddress : value)
    (proxy : option string) : M (option value) :=
  let! userToken := get_token userId in
  let! needsNewToken :=
    (if negb (truthy userToken) then ret true else isExpired userToken) in
  if needsNewToken then
    log ("Need new token for user " +:+ ToString userId) "warning" ;;;
    let! authResult := authenticate (VStr initData) proxy in
    let! ok := lift (get_prop authResult "success") in
    if truthy ok then
      let! userToken := lift (get_prop authResult "token") in
      saveToken userId userToken ;;;
      logBalance authResult ;;;
      let! wallet := lift (get_prop authResult "wallet") in
      ensureWallet wallet userToken walletAddress proxy ;;;
      ret (Some userToken)
    else
      let! error := lift (get_prop authResult "error") in
      log ("Login failed! " +:+ ToString error) "error" ;;;
      ret None
  else
    log ("Use existing token for user " +:+ ToString userId) "info" ;;;
    let! userInfo := getUserInfo userToken proxy in
    let! ok := lift (get_prop userInfo "success") in
    (if truthy ok then
       logBalance userInfo ;;;
       let! wallet := lift (get_prop userInfo "wallet") in
       ensureWallet wallet userToken walletAddress proxy
     else
       let! error := lift (get_prop userInfo "error") in
       log ("Error getting user information: " +:+ ToString error) "error") ;;;
    ret (Some userToken).

(** The banner of an account. The proxy script first checks the proxy, and
    on any failure there goes on to the next account ([false]). *)
Definition banner (v : variant) (i : nat) (firstName : value) (proxy : option string)
    : M bool :=
  match v with
  | Plain =>
      let! name := lift (styled firstName "green") in
      console_log ("========== Account " +:+ pretty (i + 1)%nat +:+ " | "
                   +:+ ToString name +:+ " ==========") ;;;
      ret true
  | Proxy =>
      try_catch
        (let! proxyIP := checkProxyIP proxy in
         let! name := lift (styled firstName "green") in
         let! ip := lift (styled proxyIP "cyan") in
         console_log ("========== Tài khoản " +:+ pretty (i + 1)%nat +:+ " | "
                      +:+ ToString name +:+ " | IP: " +:+ ToString ip
                      +:+ " ==========") ;;;
         ret true)
        (fun error =>
           log ("Lỗi proxy cho tài khoản " +:+ pretty (i + 1)%nat +:+ ": "
                +:+ message error) "error" ;;;
           ret false)
  end.

(** The body of [for (let i = 0; i < data.length; i++)] *)
Definition account (v : variant) (hoinhiemvu lamChristmas : bool)
    (entry : nat * string) : M unit :=
  let (i, initData) := entry in
  let! userData := lift (parseUser initData) in
  let! userId := lift (get_prop userData "id") in
  let! firstName := lift (get_prop userData "first_name") in
  fun w =>
    let walletAddress := from_option VStr VUndefined (wallets w !! i) in
    let proxy := match v with Plain => None | Proxy => proxies w !! i end in
    (let! go := banner v i firstName proxy in
     if negb go then ret tt else
     let! current := session initData userId walletAddress proxy in
     match current with
     | None => ret tt
     | Some userToken =>
         (if hoinhiemvu then
            log "Checking mission..." "info" ;;;
            processQuests userToken proxy
          else ret tt) ;;;
         (if lamChristmas then
            log "Checking Christmas quest..." "info" ;;;
            processChristmasQuests userToken proxy
          else ret tt) ;;;
         sleep 1000
     end) w.

(** [while (true)]: the loop has no exit; [cycles] passes of it are run. *)
Fixpoint forever (cycles : nat) (pass : M unit) : M unit :=
  match cycles with
  | O => fun w => (Running, w)
  | S n => pass ;;; forever n pass
  end.

Definition main (v : variant) (cycles : nat) : M unit :=
  let! valid := validateWalletFile v in
  if negb valid then process_exit 1 else
  let! text := read_file "data.txt" in
  let data := lines text in
  log (paint E "green"
         "Tool shared on Dan Cay Airdrop telegram channel (https://t.me/AirdropScript6)")
    "info" ;;;
  let! nhiemvu := askQuestion "Do you want to do the quest? (y/n)): " in
  let hoinhiemvu := bool_decide (Str.toLowerCase nhiemvu = "y") in
  let! christmas := askQuestion "Do you want to do Christmas mission? (y/n): " in
  let lamChristmas := bool_decide (Str.toLowerCase christmas = "y") in
  forever cycles
    (forEach (imap pair data) (account v hoinhiemvu lamChristmas) ;;;
     countdown (Z.to_nat (1440 * 60))).

(** [new PawsClient()] *)
Definition construct (v : variant) : M unit :=
  let! tokens := loadTokens in
  let! wallets := loadWallets in
  let! proxies := (match v with Plain => ret [] | Proxy => loadProxies end) in
  fun w => (Ret tt, World (trace w) tokens wallets proxies).

(** The script: [const client = new PawsClient(); client.main().catch(...)] *)
Definition program (v : variant) (cycles : nat) : M unit :=
  construct v ;;;
  try_catch (main v cycles)
    (fun err =>
       log (message err) "error" ;;;
       process_exit 1).

End Client.

(** The process before its first step. *)
Definition start : world := World [] ∅ [] [].

(** A process that has only written console lines so far: no request, no
    pause, no prompt, no file written. *)
Definition quiet (w : world) : Prop :=
  forall e, e ∈ trace w -> exists line, e = EConsole line.

(** A computation that returns without a throw and writes at most one console
    line. *)
Definition loads {A} (m : M A) : Prop :=
  forall w, exists a w',
    m w = (Ret a, w') /\ (w' = w \/ exists line, w' = after w [EConsole line]).

(** ** Specifications of computations *)

(** An event whose request, if it is one, satisfies [Q]. *)
Definition okEvent (Q : request -> Prop) (e : event) : Prop :=
  match e with
  | EAxios c => Q c
  | _ => True
  end.

(** [w'] continues [w]: the lists of wallets and proxies are those of [w],
    the token mapping too when [T] holds, and the trace of [w'] is that of
    [w] followed by events whose requests satisfy [Q]. *)
Definition continues (Q : request -> Prop) (T : Prop) (w w' : world) : Prop :=
  wallets w' = wallets w
  /\ proxies w' = proxies w
  /\ (T -> tokens w' = tokens w)
  /\ exists evs, trace w' = trace w ++ evs /\ Forall (okEvent Q) evs.

(** From every world, [m] ends with a value that satisfies [onRet] or with an
    exception that satisfies [onThrow], in a world that continues the first;
    it neither exits the process nor runs on. *)
Definition ends {A} (Q : request -> Prop) (T : Prop)
    (onRet : A -> Prop) (onThrow : exn -> Prop) (m : M A) : Prop :=
  forall w, exists r w',
    m w = (r, w')
    /\ continues Q T w w'
    /\ match r with
       | Ret a => onRet a
       | Throw e => onThrow e
       | _ => False
       end.

(** The same for a pure result. *)
Definition rends {A} (onRet : A -> Prop) (r : res A) : Prop :=
  match r with
  | Ret a => onRet a
  | Throw _ => True
  | _ => False
  end.

Definition anything {A} : A -> Prop := fun _ => True.
Definition nothing {A} : A -> Prop := fun _ => False.

(** The objects the calls to the service return: [{ success: true, ... }] or
    [{ success: false, error: msg }]. *)
Definition resultObject (v : value) : Prop :=
  (exists fields, v = VObj (("success", VBool true) :: fields))
  \/ (exists msg, v = failure msg).

(** The requests of the session calls, as [linkWallet], [authenticate] and
    [getUserInfo] build them. *)
Definition walletRequest (token wallet : value) : request :=
  Request "post" "https://api.paws.community/v1/user/wallet"
    (bearer_headers token) (VObj [("wallet", wallet)]) None None.
Definition authRequest (initData : value) : request :=
  Request "post" "https://api.paws.community/v1/user/auth" default_headers
    (VObj [("data", initData); ("referralCode", VStr EmptyString)]) None None.
Definition userRequest (token : value) : request :=
  Request "get" "https://api.paws.community/v1/user"
    (bearer_headers token) VUndefined None None.

(** [c] is [config] as [makeRequest] sends it: with or without an agent. *)
Definition sentAs (config c : request) : Prop := exists a, c = with_agent config a.

(** The requests of the ordinary quest engine for a token: the list, and the
    completion or the claim of some quest; and those of the seasonal engine. *)
Definition questTraffic (token : value) (c : request) : Prop :=
  sentAs (questsListRequest token) c
  \/ (exists questId, sentAs (completedRequest token questId) c)
  \/ (exists questId, sentAs (claimRequest token questId) c).

Definition seasonalTraffic (token : value) (c : request) : Prop :=
  sentAs (christmasListRequest token) c
  \/ (exists questId, sentAs (completedRequest token questId) c)
  \/ (exists questId, sentAs (claimRequest token questId) c).

(** A quest with a [progress] to read, and a quest whose progress is not
    claimed. *)
Definition progressRecord (quest : value) : Prop :=
  exists progress,
    get_prop quest "progress" = Ret progress
    /\ progress <> VUndefined /\ progress <> VNull.

Definition notClaimed (quest : value) : Prop :=
  exists progress claimed,
    get_prop quest "progress" = Ret progress
    /\ get_prop progress "claimed" = Ret claimed /\ truthy claimed = false.

(** A line as the start-up files are meant to hold them: not empty, and
    without a carriage return or a line feed inside. *)
Definition plainLine (l : string) : bool :=
  Str.nonEmpty l && negb (Str.contains "013" l) && negb (Str.contains "010" l).

(** The two line endings: LF, and CR LF. *)
Definition lineEnding (eol : string) : Prop :=
  eol = String "010" EmptyString \/ eol = String "013" (String "010" EmptyString).

(** The request of [checkProxyIP]. *)
Definition ipRequest (a : agent) : request :=
  Request "get" "https://api.ipify.org?format=json" [] VUndefined (Some a) (Some 10000).

(** The replies typed at the prompts, in their order; prompt number [k] was
    answered [y] or [Y]. *)
Definition replies (t : list event) : list string :=
  omap (fun e => match e with EQuestion _ reply => Some reply | _ => None end) t.

Definition agreed (k : nat) (t : list event) : Prop :=
  exists reply, replies t !! k = Some reply /\ Str.toLowerCase reply = "y".

(** The requests of the session of an account, and all the requests made for
    an account: the proxy script checks the proxy first, and the two quest
    engines run when [quests] and [seasonal] hold. *)
Definition sessionTraffic (initData : string) (c : request) : Prop :=
  sentAs (authRequest (VStr initData)) c
  \/ (exists token, sentAs (userRequest token) c)
  \/ (exists token wallet, sentAs (walletRequest token wallet) c).

Definition accountTraffic (v : variant) (quests seasonal : Prop) (initData : string)
    (c : request) : Prop :=
  (v = Proxy /\ exists a, c = ipRequest a)
  \/ sessionTraffic initData c
  \/ (quests /\ exists token, questTraffic token c)
  \/ (seasonal /\ exists token, seasonalTraffic token c).

(** ** A scripted environment

    The network answers from a list, in the order of the requests, and drops
    the connection once the list is used up; [JSON.parse] knows the texts of a
    table and rejects every other text; files are those of a table; the disk
    accepts writes or not; time stands still. *)
Module Script.

Definition dropped : exn := JsError "Error" "socket hang up".

Definition lookup_text (table : list (string * string)) (k : string) : option string :=
  snd <$> List.find (fun p => bool_decide (fst p = k)) table.

Definition env (net : list (answer response)) (json : list (string * value))
    (files : list (string * string)) (disk : option exn) (clock : Z) : Env :=
  {| axios := fun n _ => nth n net (Throws dropped);
     newHttpsProxyAgent := fun p => Returns (HttpsProxyAgent p);
     nowSeconds := fun _ => clock;
     formatLocal := fun t => pretty t;
     toLocaleTimeString := fun _ => "12:00:00";
     paint := fun _ text => text;
     Buffer_toString := fun bytes => bytes;
     JSON_parse := fun text => assoc text json;
     JSON_parse_tokens := fun _ => None;
     JSON_stringify := fun _ => "{}";
     decodeURIComponent := fun text => Some text;
     existsSync := fun path => bool_decide (is_Some (lookup_text files path));
     readFileSync := fun path =>
       match lookup_text files path with
       | Some text => Returns text
       | None => Throws (JsError "Error" "ENOENT: no such file or directory")
       end;
     writeFileSync := fun _ _ _ => disk;
     question := fun _ _ => "y" |}.

Definition ok (st : Z) (b : value) : answer response := Returns (Response st b).

(** Two quests as the list endpoint returns them. *)
Definition quest (id title code : string) (claimed : bool) (st : string) (amount : Z)
    : value :=
  VObj [("_id", VStr id); ("title", VStr title); ("code", VStr code);
        ("progress", VObj [("claimed", VBool claimed); ("status", VStr st)]);
        ("rewards", VArr [VObj [("amount", VNum amount)]])].

Definition envelope (ok : bool) (payload : value) : value :=
  VObj [("success", VBool ok); ("data", payload)].

(** Token payloads: the texts [{"exp":0}], [{"exp":1600000000}] and
    [{"exp":1900000000}], named by their base64 form, and [{}]; the clock
    reads 1700000000. *)
Definition expZero : string := "eyJleHAiOjB9".
Definition expPast : string := "eyJleHAiOjE2MDAwMDAwMDB9".
Definition expFuture : string := "eyJleHAiOjE5MDAwMDAwMDB9".

Definition tokenEnv : Env :=
  env []
    [(Base64.decode expZero, VObj [("exp", VNum 0)]);
     (Base64.decode expPast, VObj [("exp", VNum 1600000000)]);
     (Base64.decode expFuture, VObj [("exp", VNum 1900000000)]);
     ("{}", VObj [])]
    [] None 1700000000.

(** Seasonal quests: two whose code has an underscore after the prefix, two
    whose code has the number right after it; and the answer to the seasonal
    list request that carries the four. *)
Definition underscored3 : value := quest "q3" "Gift" "christmas_003" false "active" 100.
Definition underscored7 : value := quest "q7" "Bell" "christmas_007" false "active" 100.
Definition plain3 : value := quest "p3" "Tree" "christmas3" false "active" 100.
Definition plain7 : value := quest "p7" "Star" "christmas7" false "active" 100.

Definition season : Env :=
  env [ok 200 (envelope true (VArr [underscored3; plain3; plain7; underscored7]))]
    [] [] None 0.

(** Ordinary quests: the list answers with two of them; the completion of
    the first is answered 200 with [success: false] and [data: false]
    ([unqualified]), with [data: true] ([alreadyDone]), or with status 500
    ([refused]); the requests after these are answered 200 with a successful
    body. *)
Definition first : value := quest "q1" "Follow" "daily1" false "active" 250.
Definition second : value := quest "q2" "Share" "daily2" false "active" 400.

Definition batch (completion : answer response) : Env :=
  env [ok 200 (envelope true (VArr [first; second])); completion;
       ok 200 (envelope true VNull); ok 200 (envelope true VNull);
       ok 200 (envelope true VNull); ok 200 (envelope true VNull)]
    [] [] None 0.

(** The process once the list request is sent. *)
Definition listed : world :=
  World [EAxios (questsListRequest (VStr "t"))] ∅ [] [].

Definition unqualified : Env := batch (ok 200 (envelope false (VBool false))).
Definition alreadyDone : Env := batch (ok 200 (envelope false (VBool true))).
Definition refused : Env := batch (ok 500 (envelope false VNull)).



(** Input files: two wallets for one account ([mismatch]); one wallet for
    one account and no proxy file ([proxyless]). *)
Definition newline : string := String "010" EmptyString.

Definition mismatch : Env :=
  env [] []
    [("wallet.txt", "UQwallet1" +:+ newline +:+ "UQwallet2" +:+ newline);
     ("data.txt", "query_id=1&user=%7B%7D" +:+ newline)]
    None 0.

Definition proxyless : Env :=
  env [] []
    [("wallet.txt", "UQwallet1" +:+ newline);
     ("data.txt", "query_id=1&user=%7B%7D" +:+ newline)]
    None 0.

(** More token payloads: the text [null] and the text
    [{"exp":"1900000000"}], whose [exp] is a string. *)
Definition expString : string := "eyJleHAiOiIxOTAwMDAwMDAwIn0".

Definition loosePayloads : Env :=
  env []
    [("null", VNull);
     (Base64.decode expString, VObj [("exp", VStr "1900000000")])]
    [] None 1700000000.

(** An environment in which no proxy agent can be built. *)
Definition invalidUrl : exn := TypeError "Invalid URL".

Definition agentless : Env :=
  {| axios := fun n _ => Throws dropped;
     newHttpsProxyAgent := fun _ => Throws invalidUrl;
     nowSeconds := fun _ => 0;
     formatLocal := fun t => pretty t;
     toLocaleTimeString := fun _ => "12:00:00";
     paint := fun _ text => text;
     Buffer_toString := fun bytes => bytes;
     JSON_parse := fun _ => None;
     JSON_parse_tokens := fun _ => None;
     JSON_stringify := fun _ => "{}";
     decodeURIComponent := fun text => Some text;
     existsSync := fun _ => false;
     readFileSync := fun _ => Throws (JsError "Error" "ENOENT: no such file or directory");
     writeFileSync := fun _ _ _ => None;
     question := fun _ _ => "n" |}.

(** A quest already claimed, a quest record without [progress], and list
    answers that carry them. *)
Definition claimedAlready : value := quest "q0" "Join" "daily0" true "finished" 100.
Definition bare : value := VObj [("_id", VStr "q8"); ("title", VStr "Broken")].

Definition ordinary : Env :=
  env [ok 200 (envelope true (VArr [claimedAlready; first; second]))] [] [] None 0.

Definition poisoned : Env :=
  env [ok 200 (envelope true (VArr [first; bare; second]))] [] [] None 0.

(** The answer to an authentication: the token and the user record. *)
Definition userRecord (balance : Z) (wallet : value) : value :=
  VObj [("gameData", VObj [("balance", VNum balance)]);
        ("userData", VObj [("username", VStr "ann"); ("firstname", VStr "Ann");
                           ("wallet", wallet)])].

Definition signedIn : Env :=
  env [ok 201 (envelope true (VArr [VStr "h.e30.s"; userRecord 1500 (VStr "UQwallet1")]))]
    [("{}", VObj [])] [] None 0.

(** The same answer with status 200. *)
Definition signedIn200 : Env :=
  env [ok 200 (envelope true (VArr [VStr "h.e30.s"; userRecord 1500 (VStr "UQwallet1")]))]
    [("{}", VObj [])] [] None 0.

(** A seasonal completion answered 200 with a body that refuses it; the
    claim that follows is answered too. *)
Definition refusedBody : Env :=
  env [ok 200 (envelope false (VStr "not eligible")); ok 200 (envelope true VNull)]
    [] [] None 0.


Definition proxied : world := World [] ∅ [] ["http://proxy1"].

(** The completion of the first quest answered with a success, and with
    status 202. *)
Definition completed : Env := batch (ok 200 (envelope true VNull)).

End Script.

(** * Properties *)

(** ** Reasoning about computations *)

Lemma bind_Ret {A B} (m : M A) (k : A -> M B) w a w' :
  m w = (Ret a, w') -> bind m k w = k a w'.
Proof. intros H. unfold bind. by rewrite H. Qed.

Lemma traffic_app t1 t2 : traffic (t1 ++ t2) = traffic t1 ++ traffic t2.
Proof. apply omap_app. Qed.

Lemma requests_app t1 t2 : requests (t1 ++ t2) = requests t1 ++ requests t2.
Proof. apply omap_app. Qed.

(** A log line is one console event: it is no traffic and no request. *)
Lemma log_spec E msg type w :
  exists line, log E msg type w = (Ret tt, after w [EConsole line]).
Proof.
  unfold log, bind, steps, console_log, emit.
  repeat case_decide; eauto.
Qed.

Ltac step_log :=
  match goal with
  | |- context [log ?E ?m ?t ?w] =>
      let line := fresh "line" in
      let H := fresh "Hlog" in
      destruct (log_spec E m t w) as [line H]; rewrite H; clear H
  end.

Lemma set_agent_ready E config proxy a w :
  proxyAgent E proxy = Returns a ->
  set_agent E config proxy w = (Ret (with_agent config a), w).
Proof. intros H. unfold set_agent, bind, of_answer, ret. by rewrite H. Qed.

Lemma set_agent_fails E config proxy e w :
  proxyAgent E proxy = Throws e ->
  attempt E config proxy w = (Throw e, w).
Proof. intros H. unfold attempt, set_agent, bind, of_answer, throw. by rewrite H. Qed.

Lemma after_after w evs1 evs2 : after (after w evs1) evs2 = after w (evs1 ++ evs2).
Proof. unfold after; simpl. by rewrite <- app_assoc. Qed.

(** ** makeRequest *)

Section MakeRequest.

Variable E : Env.
Variables (config config' : request) (proxy : option string).
Hypothesis agent_ready : forall w, set_agent E config proxy w = (Ret config', w).

Lemma attempt_answer w :
  attempt E config proxy w =
    (match axios E (List.length (requests (trace w))) config' with
     | Returns r => Ret (Some r)
     | Throws e => Throw e
     end, after w [EAxios config']).
Proof using agent_ready.
  unfold attempt. rewrite (bind_Ret _ _ _ _ _ (agent_ready w)).
  unfold bind, call_axios, emit, of_answer, ret, throw.
  by destruct (axios E _ config').
Qed.

Lemma requests_after w evs :
  requests (trace (after w evs)) = requests (trace w) ++ requests evs.
Proof. apply requests_app. Qed.

(** A failed attempt that is not the last: one request, one console line,
    one pause, and the loop goes on. *)
Lemma loop_retry left maxRetries retryDelay k w e :
  axios E (List.length (requests (trace w))) config' = Throws e ->
  k <> maxRetries ->
  exists line,
    makeRequest_loop E (S left) config proxy maxRetries retryDelay k w
    = makeRequest_loop E left config proxy maxRetries retryDelay (S k)
        (after w [EAxios config'; EConsole line; ESleep retryDelay]).
Proof using agent_ready.
  intros Hax Hk. simpl.
  unfold try_catch. rewrite attempt_answer, Hax.
  case_decide; [done|].
  destruct (log_spec E
    ("The first try " +:+ pretty k +:+ "/" +:+ pretty maxRetries
     +:+ " failure: " +:+ message e +:+ ". Try again later "
     +:+ pretty (retryDelay / 1000) +:+ "s...") "warning"
    (after w [EAxios config'])) as [line Hlog].
  exists line. unfold bind at 1. rewrite Hlog.
  unfold bind at 1. unfold sleep, emit.
  by rewrite !after_after.
Qed.

Lemma loop_last left maxRetries retryDelay w e :
  axios E (List.length (requests (trace w))) config' = Throws e ->
  makeRequest_loop E (S left) config proxy maxRetries retryDelay maxRetries w
  = (Throw e, after w [EAxios config']).
Proof using agent_ready.
  intros Hax. simpl.
  unfold try_catch. rewrite attempt_answer, Hax.
  case_decide; [done|congruence].
Qed.

Lemma loop_success left maxRetries retryDelay k w r :
  axios E (List.length (requests (trace w))) config' = Returns r ->
  makeRequest_loop E (S left) config proxy maxRetries retryDelay k w
  = (Ret (Some r), after w [EAxios config']).
Proof using agent_ready.
  intros Hax. simpl.
  unfold try_catch. by rewrite attempt_answer, Hax.
Qed.

(** What [makeRequest] does, by the answers to its requests. *)
Lemma makeRequest_outcomes w :
  let n := List.length (requests (trace w)) in
  match axios E n config' with
  | Returns r =>
      makeRequest E config proxy w = (Ret (Some r), after w [EAxios config'])
  | Throws e1 =>
      exists l1,
        match axios E (S n) config' with
        | Returns r =>
            makeRequest E config proxy w
            = (Ret (Some r),
               after w [EAxios config'; EConsole l1; ESleep 5000; EAxios config'])
        | Throws e2 =>
            exists l2,
              makeRequest E config proxy w
              = (match axios E (S (S n)) config' with
                 | Returns r => Ret (Some r)
                 | Throws e3 => Throw e3
                 end,
                 after w [EAxios config'; EConsole l1; ESleep 5000;
                          EAxios config'; EConsole l2; ESleep 5000; EAxios config'])
        end
  end.
Proof using agent_ready.
  intros n. unfold makeRequest, makeRequest_with.
  destruct (axios E n config') as [r|e1] eqn:H1.
  { by apply loop_success. }
  destruct (loop_retry 2 3%nat 5000 1%nat w e1 H1) as [l1 ->]; [lia|].
  exists l1.
  assert (Hn1 : List.length
            (requests (trace (after w [EAxios config'; EConsole l1; ESleep 5000]))) = S n).
  { rewrite requests_after, length_app. simpl. subst n. lia. }
  destruct (axios E (S n) config') as [r|e2] eqn:H2.
  { rewrite (loop_success 1 3%nat 5000 2%nat _ r) by (by rewrite Hn1).
    by rewrite after_after. }
  destruct (loop_retry 1 3%nat 5000 2%nat
              (after w [EAxios config'; EConsole l1; ESleep 5000]) e2) as [l2 ->];
    [by rewrite Hn1|lia|].
  exists l2. rewrite after_after. cbn [app].
  assert (Hn2 : List.length
            (requests (trace (after w [EAxios config'; EConsole l1; ESleep 5000;
                                       EAxios config'; EConsole l2; ESleep 5000])))
                = S (S n)).
  { rewrite requests_after, length_app. simpl. subst n. lia. }
  destruct (axios E (S (S n)) config') as [r|e3] eqn:H3.
  - rewrite (loop_success 0 3%nat 5000 3%nat _ r) by (by rewrite Hn2).
    by rewrite after_after.
  - rewrite (loop_last 0 3%nat 5000 _ e3) by (by rewrite Hn2).
    by rewrite after_after.
Qed.

(** Whatever the answers, [makeRequest] returns a response or throws; between
    one and three requests go out, all of them the same config, a single one
    when the first is answered. *)
Lemma makeRequest_sends w :
  exists r w' n,
    makeRequest E config proxy w = (r, w')
    /\ ((exists resp, r = Ret (Some resp)) \/ (exists e, r = Throw e))
    /\ (1 <= n <= 3)%nat
    /\ requests (trace w') = requests (trace w) ++ replicate n config'
    /\ (forall resp,
          axios E (List.length (requests (trace w))) config' = Returns resp -> n = 1%nat).
Proof using agent_ready.
  pose proof (makeRequest_outcomes w) as H. cbv zeta in H.
  destruct (axios E (List.length (requests (trace w))) config') as [r1|e1].
  { rewrite H. do 2 eexists. exists 1%nat.
    split; [done|]. split; [eauto|]. split; [lia|].
    split; [by rewrite requests_after|done]. }
  destruct H as [l1 H].
  destruct (axios E (S (List.length (requests (trace w)))) config') as [r2|e2].
  { rewrite H. do 2 eexists. exists 2%nat.
    split; [done|]. split; [eauto|]. split; [lia|].
    split; [by rewrite requests_after|done]. }
  destruct H as [l2 ->]. do 2 eexists. exists 3%nat.
  split; [done|].
  split; [destruct (axios E (S (S (List.length (requests (trace w))))) config'); eauto|].
  split; [lia|]. split; [by rewrite requests_after|done].
Qed.

End MakeRequest.

(** When the proxy agent cannot be built no request goes out and
    [makeRequest] throws; so a response tells that the agent was built. *)
Lemma makeRequest_without_agent E config proxy e w :
  proxyAgent E proxy = Throws e ->
  exists w', makeRequest E config proxy w = (Throw e, w').
Proof.
  intros H. unfold makeRequest, makeRequest_with. cbn [makeRequest_loop].
  unfold try_catch at 1. rewrite (set_agent_fails _ _ _ e _ H).
  case_decide; [done|]. unfold bind at 1. step_log.
  unfold bind at 1, sleep, emit.
  unfold try_catch at 1. rewrite (set_agent_fails _ _ _ e _ H).
  case_decide; [done|]. unfold bind at 1. step_log.
  unfold bind at 1.
  unfold try_catch at 1. rewrite (set_agent_fails _ _ _ e _ H).
  case_decide; [|done]. unfold throw. eauto.
Qed.

Lemma makeRequest_response_agent E config proxy w resp w1 :
  makeRequest E config proxy w = (Ret (Some resp), w1) ->
  exists a, proxyAgent E proxy = Returns a.
Proof.
  intros Hreq. destruct (proxyAgent E proxy) as [a|e] eqn:Ha; [eauto|].
  destruct (makeRequest_without_agent E config proxy e w Ha) as [w' Hw'].
  congruence.
Qed.

(** C5. When the call throws at every attempt, [makeRequest] makes exactly
    three attempts, pauses 5000 ms between them and throws the error of the
    third, unchanged.  When an attempt succeeds its response is returned and
    nothing more is sent: one request for a first success, two requests and
    one pause for a second, three requests and two pauses for a third.
    [config'] is the config as sent: [config] itself in the plain script, with
    the proxy agent set in the proxy script, where the agent [a] could be
    built for the proxy. *)
Theorem makeRequest_three_attempts E config proxy a w :
  proxyAgent E proxy = Returns a ->
  let config' := with_agent config a in
  let n := List.length (requests (trace w)) in
  (forall e1 e2 e3,
      axios E n config' = Throws e1 ->
      axios E (S n) config' = Throws e2 ->
      axios E (S (S n)) config' = Throws e3 ->
      exists w',
        makeRequest E config proxy w = (Throw e3, w')
        /\ traffic (trace w')
           = traffic (trace w)
               ++ [EAxios config'; ESleep 5000; EAxios config'; ESleep 5000; EAxios config'])
  /\ (forall r,
      axios E n config' = Returns r ->
      exists w',
        makeRequest E config proxy w = (Ret (Some r), w')
        /\ traffic (trace w') = traffic (trace w) ++ [EAxios config'])
  /\ (forall e1 r,
      axios E n config' = Throws e1 ->
      axios E (S n) config' = Returns r ->
      exists w',
        makeRequest E config proxy w = (Ret (Some r), w')
        /\ traffic (trace w')
           = traffic (trace w) ++ [EAxios config'; ESleep 5000; EAxios config'])
  /\ (forall e1 e2 r,
      axios E n config' = Throws e1 ->
      axios E (S n) config' = Throws e2 ->
      axios E (S (S n)) config' = Returns r ->
      exists w',
        makeRequest E config proxy w = (Ret (Some r), w')
        /\ traffic (trace w')
           = traffic (trace w)
               ++ [EAxios config'; ESleep 5000; EAxios config'; ESleep 5000; EAxios config']).
Proof.
  intros Ha config' n.
  assert (Hagent : forall w0, set_agent E config proxy w0 = (Ret config', w0))
    by (intros w0; by apply set_agent_ready).
  pose proof (makeRequest_outcomes E config config' proxy Hagent w) as H.
  cbv zeta in H. fold n in H.
  repeat split.
  - intros e1 e2 e3 H1 H2 H3. rewrite H1 in H. destruct H as [l1 H].
    rewrite H2 in H. destruct H as [l2 H]. rewrite H3 in H.
    eexists; split; [exact H|]. unfold after; simpl. by rewrite traffic_app.
  - intros r H1. rewrite H1 in H.
    eexists; split; [exact H|]. unfold after; simpl. by rewrite traffic_app.
  - intros e1 r H1 H2. rewrite H1 in H. destruct H as [l1 H]. rewrite H2 in H.
    eexists; split; [exact H|]. unfold after; simpl. by rewrite traffic_app.
  - intros e1 e2 r H1 H2 H3. rewrite H1 in H. destruct H as [l1 H].
    rewrite H2 in H. destruct H as [l2 H]. rewrite H3 in H.
    eexists; split; [exact H|]. unfold after; simpl. by rewrite traffic_app.
Qed.

Lemma makeRequest_three_attempts_witness :
  let c := questsListRequest (VStr "t") in
  let r := Response 200 (Script.envelope true (VArr [])) in
  let dead := Script.env [] [] [] None 0 in
  let flaky := Script.env [Throws Script.dropped; Returns r] [] [] None 0 in
  (exists w',
      makeRequest dead c None start = (Throw Script.dropped, w')
      /\ traffic (trace w') = [EAxios c; ESleep 5000; EAxios c; ESleep 5000; EAxios c])
  /\ (exists w',
      makeRequest flaky c None start = (Ret (Some r), w')
      /\ traffic (trace w') = [EAxios c; ESleep 5000; EAxios c]).
Proof.
  intros c r dead flaky. split.
  - destruct (makeRequest_three_attempts dead c None None start eq_refl) as [H _].
    apply (H Script.dropped Script.dropped Script.dropped); reflexivity.
  - destruct (makeRequest_three_attempts flaky c None None start eq_refl)
      as (_ & _ & H & _).
    apply (H Script.dropped r); reflexivity.
Defined.

(** ** isExpired *)

Lemma startsWith_dot c r :
  Str.startsWith (String c r) "." = bool_decide (c = "."%char).
Proof.
  cbn [Str.startsWith].
  case_decide; case_bool_decide; try done; try congruence.
  by destruct r.
Qed.

Lemma append_cons a s t : String a s +:+ t = String a (s +:+ t).
Proof. reflexivity. Qed.

Lemma append_empty_r s : s +:+ EmptyString = s.
Proof. induction s as [|a s IH]; [done|]. by rewrite append_cons, IH. Qed.

Lemma append_snoc cur c r : Str.snoc cur c +:+ r = cur +:+ String c r.
Proof.
  induction cur as [|a cur IH]; [done|].
  cbn [Str.snoc]. by rewrite !append_cons, IH.
Qed.

(** A text without the separator is a single piece. *)
Lemma split_go_no_dot s cur :
  Str.contains "." s = false ->
  Str.split_go "." s cur 0 = [cur +:+ s].
Proof.
  revert cur. induction s as [|c r IH]; intros cur Hc.
  - cbn [Str.split_go]. by rewrite append_empty_r.
  - cbn [Str.split_go]. rewrite startsWith_dot.
    cbn [Str.contains] in Hc. case_decide; [done|].
    rewrite bool_decide_false by done.
    rewrite IH by done. by rewrite append_snoc.
Qed.

Lemma split_no_dot s : Str.contains "." s = false -> Str.split "." s = [s].
Proof. intros H. unfold Str.split. by rewrite split_go_no_dot. Qed.

(** C9. A token string without a dot has no middle segment: the decoding of
    [undefined] happens before the [try], and [isExpired] throws a TypeError
    to its caller; it returns no boolean and logs nothing. *)
Theorem isExpired_throws_without_dot E token w :
  Str.contains "." token = false ->
  exists msg, isExpired E (VStr token) w = (Throw (TypeError msg), w).
Proof.
  intros Hdot. unfold isExpired. rewrite split_no_dot by done.
  simpl. unfold bind, lift. simpl. eauto.
Qed.

Lemma isExpired_throws_without_dot_witness :
  exists msg,
    isExpired (Script.env [] [] [] None 0) (VStr "eyJhbGciOiJIUzI1NiJ9") start
    = (Throw (TypeError msg), start).
Proof.
  apply (isExpired_throws_without_dot (Script.env [] [] [] None 0) "eyJhbGciOiJIUzI1NiJ9").
  reflexivity.
Defined.

Section IsExpired.

Variable E : Env.
Variables (token segment : string) (w : world).
Hypothesis middle : Str.split "." token !! 1%nat = Some segment.


Lemma isExpired_parsed parsed :
  JSON_parse E (Buffer_toString E (Base64.decode segment)) = Some parsed ->
  isExpired E (VStr token) w =
    try_catch
      (let! exp := lift (get_prop parsed "exp") in
       if truthy exp then
         let! expirationDate := lift (formatExpiry E exp) in
         log E (paint E "cyan" ("Token expires on: " +:+ expirationDate)) "info" ;;;
         let isExpired := later_than (nowSeconds E (List.length (trace w))) exp in
         log E (paint E "cyan"
                  ("Has the token expired? "
                   +:+ (if isExpired then "Yes, you need to replace the token"
                        else "Not yet..go for it"))) "info" ;;;
         ret isExpired
       else
         log E "Perpetual Token Unreadable Expiry Time" "warning" ;;;
         ret false)
      (fun error =>
         log E ("Error: " +:+ message error) "error" ;;;
         ret true) w.
Proof using middle.
  intros Hparse. unfold isExpired. rewrite middle. simpl.
  unfold bind at 1. unfold lift at 1.
  unfold try_catch, JSON_parse_or_throw. rewrite Hparse.
  unfold bind at 1. unfold lift at 1.
  unfold bind at 1. unfold now at 1.
  reflexivity.
Qed.

Lemma isExpired_numeric props exp :
  JSON_parse E (Buffer_toString E (Base64.decode segment)) = Some (VObj props) ->
  assoc "exp" props = Some (VNum exp) ->
  exp <> 0 ->
  exists l1 l2,
    isExpired E (VStr token) w
    = (Ret (bool_decide (exp < nowSeconds E (List.length (trace w)))),
       after w [EConsole l1; EConsole l2]).
Proof using middle.
  intros Hparse Hexp Hnz. rewrite (isExpired_parsed _ Hparse).
  unfold try_catch, bind at 1, lift at 1. simpl. rewrite Hexp. simpl.
  rewrite (proj2 (Z.eqb_neq exp 0)) by done. simpl.
  rewrite after_after. do 2 eexists. f_equal. f_equal.
  destruct (Z.ltb_spec exp (nowSeconds E (List.length (trace w))));
    [by rewrite bool_decide_true|by rewrite bool_decide_false by lia].
Qed.

Lemma isExpired_zero props :
  JSON_parse E (Buffer_toString E (Base64.decode segment)) = Some (VObj props) ->
  assoc "exp" props = Some (VNum 0) ->
  exists line, isExpired E (VStr token) w = (Ret false, after w [EConsole line]).
Proof using middle.
  intros Hparse Hexp. rewrite (isExpired_parsed _ Hparse).
  unfold try_catch, bind at 1, lift at 1. simpl. rewrite Hexp. simpl.
  eauto.
Qed.

End IsExpired.

(** C3, as the code has it. For a token whose middle segment decodes to a
    JSON object with a numeric, non-zero [exp], [isExpired] returns whether
    [exp] is strictly before the clock reading (whole seconds): true for an
    [exp] in the past, false for one in the future (and for [exp] equal to the
    reading).  An [exp] of zero is taken for no expiry at all. *)
Theorem isExpired_compares_expiry E token segment props exp w :
  Str.split "." token !! 1%nat = Some segment ->
  JSON_parse E (Buffer_toString E (Base64.decode segment)) = Some (VObj props) ->
  assoc "exp" props = Some (VNum exp) ->
  exp <> 0 ->
  fst (isExpired E (VStr token) w)
  = Ret (bool_decide (exp < nowSeconds E (List.length (trace w)))).
Proof.
  intros Hmid Hparse Hexp Hnz.
  destruct (isExpired_numeric E token segment w Hmid props exp Hparse Hexp Hnz)
    as (l1 & l2 & ->).
  reflexivity.
Qed.

Lemma isExpired_compares_expiry_witness :
  fst (isExpired Script.tokenEnv (VStr ("h." +:+ Script.expPast +:+ ".s")) start) = Ret true
  /\ fst (isExpired Script.tokenEnv (VStr ("h." +:+ Script.expFuture +:+ ".s")) start)
     = Ret false.
Proof.
  split.
  - apply (isExpired_compares_expiry Script.tokenEnv ("h." +:+ Script.expPast +:+ ".s")
             Script.expPast [("exp", VNum 1600000000)] 1600000000 start);
      [reflexivity | reflexivity | reflexivity | lia].
  - apply (isExpired_compares_expiry Script.tokenEnv ("h." +:+ Script.expFuture +:+ ".s")
             Script.expFuture [("exp", VNum 1900000000)] 1900000000 start);
      [reflexivity | reflexivity | reflexivity | lia].
Defined.

(** C3 as stated fails: the payload [{"exp":0}] parses, carries [exp], and
    epoch second 0 is before the clock reading 1700000000, yet the answer is
    false. *)
Lemma isExpired_zero_expiry_not_expired :
  Str.split "." ("h." +:+ Script.expZero +:+ ".s") !! 1%nat = Some Script.expZero
  /\ JSON_parse Script.tokenEnv (Buffer_toString Script.tokenEnv (Base64.decode Script.expZero))
     = Some (VObj [("exp", VNum 0)])
  /\ 0 < nowSeconds Script.tokenEnv (List.length (trace start))
  /\ fst (isExpired Script.tokenEnv (VStr ("h." +:+ Script.expZero +:+ ".s")) start)
     = Ret false.
Proof. repeat split. Qed.




(** ** saveToken *)


(** ** The quest engine *)







Lemma get_index_head x xs : get_index (VArr (x :: xs)) 0 = Ret x.
Proof. reflexivity. Qed.



Lemma destructure_Ret v k source x :
  get_prop v k = Ret x -> destructure v k source = Ret x.
Proof. by destruct v. Qed.



(** *** The seasonal filter *)

Lemma is_str_spec lit v : is_str lit v = true <-> v = VStr lit.
Proof.
  destruct v; simpl; try (split; [discriminate|congruence]).
  rewrite bool_decide_eq_true. split; congruence.
Qed.

Lemma get_prop_of_defined v k :
  v <> VUndefined -> v <> VNull -> exists x, get_prop v k = Ret x.
Proof. destruct v; simpl; intros; try done; eauto. Qed.

(** On a quest record the callback returns, and says whether the quest is a
    seasonal quest still to do. *)
Lemma christmasFilter_spec quest :
  questRecord quest ->
  exists keep, christmasFilter quest = Ret keep /\ (keep = true <-> seasonal quest).
Proof.
  intros (code & progress & Hcode & Hprogress & Hdef & Hnull).
  destruct (get_prop_of_defined progress "claimed" Hdef Hnull) as [claimed Hclaimed].
  destruct (get_prop_of_defined progress "status" Hdef Hnull) as [st Hst].
  unfold christmasFilter. rewrite Hcode. cbn [rbind startsWith_method slice_method].
  unfold parseInt. cbn [ToString].
  destruct (Str.startsWith code "christmas") eqn:Hstarts; cbn [negb].
  2: { exists false. split; [done|]. split; [done|].
       intros (c & p & cl & s' & n & Hc & Hs & _). congruence. }
  destruct (ParseInt.parseInt (Str.slice 9 code)) as [n|] eqn:Hn; cbn [at_most].
  2: { exists false. split; [done|]. split; [done|].
       intros (c & p & cl & s' & n & Hc & _ & Hp & _).
       assert (c = code) as -> by congruence. congruence. }
  destruct (Z.leb_spec n 6) as [Hle|Hgt]; cbn [negb].
  2: { exists false. split; [done|]. split; [done|].
       intros (c & p & cl & s' & n' & Hc & _ & Hp & Hle & _).
       assert (c = code) as -> by congruence.
       assert (n' = n) as -> by congruence. lia. }
  rewrite Hprogress. cbn [rbind]. rewrite Hclaimed. cbn [rbind].
  destruct (truthy claimed) eqn:Htruthy.
  { exists false. split; [done|]. split; [done|].
    intros (c & p & cl & s' & n' & _ & _ & _ & _ & Hp & Hcl & Hf & _).
    assert (p = progress) as -> by congruence.
    assert (cl = claimed) as -> by congruence. congruence. }
  rewrite Hst. cbn [rbind].
  exists (negb (is_str "finished" st)). split; [done|].
  rewrite negb_true_iff, <- not_true_iff_false, is_str_spec.
  split.
  - intros Hne. exists code, progress, claimed, st, n. repeat split; done.
  - intros (c & p & cl & s' & n' & _ & _ & _ & _ & Hp & _ & _ & Hs & Hne).
    assert (p = progress) as -> by congruence.
    assert (s' = st) as -> by congruence. done.
Qed.

(** [filter] with a callback that returns on every element keeps, in their
    order, the elements on which it returns true. *)
Lemma filterM_spec (f : value -> res bool) (P : value -> Prop) xs :
  Forall (fun x => exists keep, f x = Ret keep /\ (keep = true <-> P x)) xs ->
  exists ys,
    filterM f xs = Ret ys
    /\ sublist ys xs
    /\ (forall q, q ∈ ys <-> q ∈ xs /\ P q).
Proof.
  induction 1 as [|x xs (keep & Hf & Hkeep) _ (ys & Hys & Hsub & Hmem)].
  - exists []. split; [done|]. split; [done|].
    intros q. rewrite elem_of_nil. tauto.
  - cbn [filterM]. rewrite Hf, Hys. cbn [rbind].
    destruct keep.
    + exists (x :: ys). split; [done|]. split; [by constructor|].
      intros q. rewrite !elem_of_cons, Hmem.
      split.
      * intros [->|[? ?]]; [split; [by left|by apply Hkeep]|split; [by right|done]].
      * intros [[->|?] ?]; [by left|by right].
    + exists ys. split; [done|]. split; [by constructor|].
      intros q. rewrite elem_of_cons, Hmem.
      split.
      * intros [? ?]. split; [by right|done].
      * intros [[->|?] HP]; [apply Hkeep in HP; discriminate|done].
Qed.

(** C1, as the code has it. When the seasonal list request is answered with
    status 200 and a successful body whose data is an array of quest records,
    [getChristmasQuests] returns the quests of that array, in their order,
    that are seasonal quests still to do: a quest is kept if and only if its
    code starts with [christmas], the number that [parseInt] reads right after
    these nine characters is at most 6, its progress is not claimed and its
    status is not [finished]. *)
Theorem getChristmasQuests_keeps_seasonal E token proxy w resp w1 success quests :
  makeRequest E (christmasListRequest token) proxy w = (Ret (Some resp), w1) ->
  status resp = 200 ->
  get_prop (body resp) "success" = Ret success ->
  truthy success = true ->
  get_prop (body resp) "data" = Ret (VArr quests) ->
  Forall questRecord quests ->
  exists kept,
    getChristmasQuests E token proxy w
    = (Ret (VObj [("success", VBool true); ("data", VArr kept)]), w1)
    /\ sublist kept quests
    /\ (forall quest, quest ∈ kept <-> quest ∈ quests /\ seasonal quest).
Proof.
  intros Hreq Hstatus Hsuccess Htruthy Hdata Hrecords.
  destruct (filterM_spec christmasFilter seasonal quests) as (kept & Hkept & Hsub & Hmem).
  { eapply Forall_impl; [exact Hrecords|]. apply christmasFilter_spec. }
  exists kept. split; [|done].
  unfold getChristmasQuests, try_catch.
  rewrite (bind_Ret _ _ _ _ _ Hreq).
  unfold bind at 1, lift at 1, status_and_success.
  cbn [status_of data_of rbind]. rewrite Hstatus. cbn [Z.eqb Pos.eqb negb].
  rewrite Hsuccess. cbn [rbind]. rewrite Htruthy.
  unfold lift. cbn [data_of rbind]. rewrite Hdata. cbn [rbind array_filter].
  rewrite Hkept. reflexivity.
Qed.

Lemma getChristmasQuests_keeps_seasonal_witness :
  exists kept,
    getChristmasQuests Script.season (VStr "t") None start
    = (Ret (VObj [("success", VBool true); ("data", VArr kept)]),
       after start [EAxios (christmasListRequest (VStr "t"))])
    /\ sublist kept [Script.underscored3; Script.plain3; Script.plain7; Script.underscored7]
    /\ (forall quest,
          quest ∈ kept
          <-> quest ∈ [Script.underscored3; Script.plain3; Script.plain7;
                       Script.underscored7]
              /\ seasonal quest).
Proof.
  apply (getChristmasQuests_keeps_seasonal Script.season (VStr "t") None start
           (Response 200
              (Script.envelope true
                 (VArr [Script.underscored3; Script.plain3; Script.plain7;
                        Script.underscored7])))
           (after start [EAxios (christmasListRequest (VStr "t"))]) (VBool true)).
  - reflexivity.
  - reflexivity.
  - reflexivity.
  - reflexivity.
  - reflexivity.
  - repeat (apply Forall_cons_2;
            [eexists _, _; repeat split; discriminate|]).
    apply Forall_nil_2.
Defined.

(** C1 as stated fails on its own example: the quest with code
    [christmas_003], unclaimed and with status [active], is not kept.  The
    text after the nine characters of the prefix is [_003], in which
    [parseInt] reads no number.  Of the four quests of the answer only the
    one with code [christmas3] is kept; [christmas_007] is dropped for the
    same reason as [christmas_003], [christmas7] because 7 is more than 6. *)
Lemma christmas_003_not_kept :
  get_prop Script.underscored3 "code" = Ret (VStr "christmas_003")
  /\ Str.startsWith "christmas_003" "christmas" = true
  /\ ParseInt.parseInt (Str.slice 9 "christmas_003") = None
  /\ christmasFilter Script.underscored3 = Ret false
  /\ fst (getChristmasQuests Script.season (VStr "t") None start)
     = Ret (VObj [("success", VBool true); ("data", VArr [Script.plain3])]).
Proof. repeat split. Qed.

(** *** The batch *)

(** A 200/201 answer whose [success] is false and whose [data] is [false]:
    a warning is logged and the method ends without a value. *)
Lemma completeQuest_unqualified E token questId proxy w resp w1 success :
  makeRequest E (completedRequest token questId) proxy w = (Ret (Some resp), w1) ->
  status resp = 200 \/ status resp = 201 ->
  get_prop (body resp) "success" = Ret success ->
  truthy success = false ->
  get_prop (body resp) "data" = Ret (VBool false) ->
  exists line,
    completeQuest E token questId proxy w = (Ret VUndefined, after w1 [EConsole line]).
Proof.
  intros Hreq Hstatus Hsuccess Hfalsy Hdata.
  unfold completeQuest, try_catch.
  rewrite (bind_Ret _ _ _ _ _ Hreq).
  unfold bind at 1, lift at 1. cbn [status_of].
  unfold bind at 1, lift at 1. cbn [data_of].
  unfold bind at 1, lift at 1. rewrite (destructure_Ret _ _ _ _ Hsuccess).
  unfold bind at 1, lift at 1. rewrite Hdata.
  assert ((status resp =? 200) || (status resp =? 201) = true) as ->.
  { destruct Hstatus as [-> | ->]; reflexivity. }
  rewrite Hfalsy. cbn [is_true is_false].
  unfold bind at 1. step_log. unfold ret. eauto.
Qed.

(** When [completeQuest] ends without a value, the loop body throws on
    [completeResult.success]. *)
Lemma processQuest_throws_on_undefined E token proxy quest w title questId w1 :
  get_prop quest "title" = Ret title ->
  get_prop quest "_id" = Ret questId ->
  completeQuest E token questId proxy
    (snd (log E ("Processing task: " +:+ ToString title) "info" w))
  = (Ret VUndefined, w1) ->
  processQuest E token proxy quest w
  = (Throw (TypeError "Cannot read properties of undefined (reading 'success')"), w1).
Proof.
  intros Htitle Hid Hcomplete. unfold processQuest.
  unfold bind at 1, lift at 1. rewrite Htitle.
  unfold bind at 1. revert Hcomplete. step_log. cbn [snd]. intros Hcomplete.
  unfold bind at 1, lift at 1. rewrite Hid.
  unfold bind at 1. rewrite Hcomplete.
  reflexivity.
Qed.

(** A throw in the body ends the loop: the elements that follow are not
    visited. *)
Lemma forEach_throws {A} (body : A -> M unit) x rest w e w' :
  body x w = (Throw e, w') -> forEach (x :: rest) body w = (Throw e, w').
Proof. intros H. cbn [forEach]. unfold bind. by rewrite H. Qed.

(** C2 fails on the code. The list has two quests; the completion of the
    first is answered 200 with [success: false] and [data: false].
    [completeQuest] then ends without a value, reading [success] of
    [undefined] throws in the loop of [processQuests], the [catch] around the
    loop logs it, and the second quest is never sent.  The same happens when
    [data] is [true], after the claim with the placeholder.  When instead the
    completion of the first is answered with status 500, the failure is
    logged, the loop goes on and the second quest is completed and claimed. *)
Theorem processQuests_stops_after_unqualified_quest :
  requests (trace (snd (processQuests Script.unqualified (VStr "t") None start)))
  = [questsListRequest (VStr "t"); completedRequest (VStr "t") (VStr "q1")]
  /\ last (trace (snd (processQuests Script.unqualified (VStr "t") None start)))
     = Some (EConsole ("[12:00:00] [!] Error while processing the task: "
                       +:+ "Cannot read properties of undefined (reading 'success')"))
  /\ requests (trace (snd (processQuests Script.alreadyDone (VStr "t") None start)))
     = [questsListRequest (VStr "t"); completedRequest (VStr "t") (VStr "q1");
        claimRequest (VStr "t") (VStr "q1")]
  /\ requests (trace (snd (processQuests Script.refused (VStr "t") None start)))
     = [questsListRequest (VStr "t"); completedRequest (VStr "t") (VStr "q1");
        completedRequest (VStr "t") (VStr "q2"); claimRequest (VStr "t") (VStr "q2")].
Proof. repeat split; vm_compute; reflexivity. Qed.

(** ** Start-up *)

Lemma quiet_after w line : quiet w -> quiet (after w [EConsole line]).
Proof.
  intros Hq e. unfold after; cbn [trace].
  rewrite elem_of_app, list_elem_of_singleton. intros [?| ->]; eauto.
Qed.

Lemma quiet_start : quiet start.
Proof. intros e. unfold start; cbn [trace]. by rewrite elem_of_nil. Qed.

Lemma loads_quiet {A} (m : M A) w :
  loads m -> quiet w ->
  exists a w', m w = (Ret a, w') /\ quiet w' /\ trace w' = trace (after w' []).
Proof.
  intros Hm Hq. destruct (Hm w) as (a & w' & Heq & Hw').
  exists a, w'. split; [done|]. split.
  - destruct Hw' as [->|[line ->]]; [done|by apply quiet_after].
  - unfold after; cbn [trace]. by rewrite app_nil_r.
Qed.

Ltac loaded :=
  unfold ret; do 2 eexists; split; [reflexivity|]; first [by left | right; eauto].

Lemma loadWallets_loads E : loads (loadWallets E).
Proof.
  intros w. unfold loadWallets, try_catch.
  destruct (existsSync E "wallet.txt"); [|loaded].
  unfold bind at 1, read_file, of_answer.
  destruct (readFileSync E "wallet.txt") as [text|e]; [loaded|].
  unfold throw. unfold bind. step_log. loaded.
Qed.

Lemma loadProxies_loads E : loads (loadProxies E).
Proof.
  intros w. unfold loadProxies, try_catch.
  destruct (existsSync E "proxy.txt"); [|loaded].
  unfold bind at 1, read_file, of_answer.
  destruct (readFileSync E "proxy.txt") as [text|e]; [loaded|].
  unfold throw. unfold bind. step_log. loaded.
Qed.

Lemma loadTokens_loads E : loads (loadTokens E).
Proof.
  intros w. unfold loadTokens, try_catch.
  destruct (existsSync E "token.json"); [|loaded].
  unfold bind at 1, read_file, of_answer.
  destruct (readFileSync E "token.json") as [text|e].
  - unfold ret at 1. destruct (JSON_parse_tokens E text); [loaded|].
    unfold throw. unfold bind. step_log. loaded.
  - unfold throw. unfold bind. step_log. loaded.
Qed.

(** The constructor returns, having written nothing but console lines. *)
Lemma construct_quiet E v :
  exists w0, construct E v start = (Ret tt, w0) /\ quiet w0.
Proof.
  unfold construct.
  destruct (loads_quiet _ start (loadTokens_loads E) quiet_start)
    as (m & w1 & H1 & Hq1 & _).
  rewrite (bind_Ret _ _ _ _ _ H1).
  destruct (loads_quiet _ w1 (loadWallets_loads E) Hq1) as (ws & w2 & H2 & Hq2 & _).
  rewrite (bind_Ret _ _ _ _ _ H2).
  destruct v.
  - unfold bind, ret. eexists. split; [done|]. exact Hq2.
  - destruct (loads_quiet _ w2 (loadProxies_loads E) Hq2) as (ps & w3 & H3 & Hq3 & _).
    rewrite (bind_Ret _ _ _ _ _ H3). eexists. split; [done|]. exact Hq3.
Qed.

(** When the lists differ in length, [validateWalletFile] says so on the
    console and returns false, and [main] exits with code 1 at once. *)
Lemma main_mismatch E v cycles w text :
  readFileSync E "data.txt" = Returns text ->
  List.length (wallets w) <> List.length (lines text)
  \/ (v = Proxy /\ List.length (proxies w) <> List.length (lines text)) ->
  exists line,
    validateWalletFile E v w = (Ret false, after w [EConsole line])
    /\ main E v cycles w = (Exit 1, after w [EConsole line]).
Proof.
  intros Hread Hdiff.
  assert (exists line, validateWalletFile E v w = (Ret false, after w [EConsole line]))
    as [line Hv].
  { unfold validateWalletFile, bind at 1, read_file, of_answer. rewrite Hread.
    unfold ret at 1.
    destruct (decide (List.length (wallets w) = List.length (lines text))) as [Heq|Hne].
    - destruct Hdiff as [?|[-> Hp]]; [done|].
      rewrite bool_decide_true by done. cbn [negb].
      rewrite bool_decide_false by done. cbn [negb].
      unfold bind. step_log. unfold ret. eauto.
    - rewrite bool_decide_false by done. cbn [negb].
      unfold bind. step_log. unfold ret. eauto. }
  exists line. split; [done|].
  unfold main. rewrite (bind_Ret _ _ _ _ _ Hv). reflexivity.
Qed.

(** C7. When the lists loaded at start-up differ in length (wallets and data
    lines; in the proxy script also proxies and data lines),
    [validateWalletFile] returns false and the process exits with code 1.
    Up to then it has only written console lines: no request was sent, no
    prompt shown, no account touched, and the run loop was not entered,
    however many passes it was given. *)
Theorem unequal_lists_exit_before_loop E v cycles text :
  readFileSync E "data.txt" = Returns text ->
  List.length (wallets (snd (construct E v start))) <> List.length (lines text)
  \/ (v = Proxy
      /\ List.length (proxies (snd (construct E v start))) <> List.length (lines text)) ->
  exists w',
    validateWalletFile E v (snd (construct E v start)) = (Ret false, w')
    /\ program E v cycles start = (Exit 1, w')
    /\ quiet w'.
Proof.
  intros Hread Hdiff.
  destruct (construct_quiet E v) as (w0 & Hc & Hq).
  rewrite Hc in *. cbn [snd] in *.
  destruct (main_mismatch E v cycles w0 text Hread Hdiff) as (line & Hv & Hmain).
  exists (after w0 [EConsole line]). split; [done|]. split.
  - unfold program. rewrite (bind_Ret _ _ _ _ _ Hc).
    unfold try_catch. by rewrite Hmain.
  - by apply quiet_after.
Qed.

Lemma unequal_lists_exit_before_loop_witness :
  (exists w',
      validateWalletFile Script.mismatch Plain (snd (construct Script.mismatch Plain start))
      = (Ret false, w')
      /\ program Script.mismatch Plain 1 start = (Exit 1, w')
      /\ quiet w')
  /\ (exists w',
      validateWalletFile Script.proxyless Proxy
        (snd (construct Script.proxyless Proxy start)) = (Ret false, w')
      /\ program Script.proxyless Proxy 1 start = (Exit 1, w')
      /\ quiet w').
Proof.
  split.
  - apply (unequal_lists_exit_before_loop Script.mismatch Plain 1
             ("query_id=1&user=%7B%7D" +:+ Script.newline)).
    + reflexivity.
    + left. vm_compute. lia.
  - apply (unequal_lists_exit_before_loop Script.proxyless Proxy 1
             ("query_id=1&user=%7B%7D" +:+ Script.newline)).
    + reflexivity.
    + right. split; [reflexivity|]. vm_compute. lia.
Defined.

(** * Further properties *)

(** ** Composing specifications *)

Lemma continues_refl Q T w : continues Q T w w.
Proof.
  repeat split; try done. exists []. split; [by rewrite app_nil_r|constructor].
Qed.

Lemma continues_trans Q T w1 w2 w3 :
  continues Q T w1 w2 -> continues Q T w2 w3 -> continues Q T w1 w3.
Proof.
  intros (Hw & Hp & Ht & evs & Htr & Hev) (Hw' & Hp' & Ht' & evs' & Htr' & Hev').
  split; [congruence|]. split; [congruence|].
  split; [intros HT; rewrite Ht', Ht; done|].
  exists (evs ++ evs'). split; [by rewrite Htr', Htr, app_assoc|].
  by apply Forall_app.
Qed.

Lemma continues_after Q T w evs :
  Forall (okEvent Q) evs -> continues Q T w (after w evs).
Proof. intros H. repeat split; try done. by exists evs. Qed.

Lemma continues_weaken (Q Q' : request -> Prop) (T T' : Prop) w w' :
  (forall c, Q c -> Q' c) -> (T' -> T) ->
  continues Q T w w' -> continues Q' T' w w'.
Proof.
  intros HQ HT (Hw & Hp & Ht & evs & Htr & Hev).
  split; [done|]. split; [done|]. split; [auto|].
  exists evs. split; [done|].
  eapply Forall_impl; [exact Hev|]. intros [] ?; simpl in *; auto.
Qed.

Lemma continues_requests Q T w w' :
  continues Q T w w' ->
  exists sent, requests (trace w') = requests (trace w) ++ sent /\ Forall Q sent.
Proof.
  intros (_ & _ & _ & evs & -> & Hev). exists (requests evs).
  split; [apply requests_app|].
  induction Hev as [|e evs He _ IH]; [constructor|].
  destruct e; simpl in *; try done. by constructor.
Qed.

Section Ends.

Context {A B : Type}.
Variables (Q : request -> Prop) (T : Prop).

Lemma ends_ret (P : A -> Prop) R a : P a -> ends Q T P R (ret a).
Proof. intros H w. exists (Ret a), w. split; [done|]. split; [apply continues_refl|done]. Qed.

Lemma ends_throw (P : A -> Prop) (R : exn -> Prop) e : R e -> ends Q T P R (throw e).
Proof. intros H w. exists (Throw e), w. split; [done|]. split; [apply continues_refl|done]. Qed.

Lemma ends_lift (P : A -> Prop) R r : rends P r -> (forall e, R e) -> ends Q T P R (lift r).
Proof.
  intros H HR w. exists r, w. split; [done|]. split; [apply continues_refl|].
  destruct r; simpl in *; auto.
Qed.

Lemma ends_bind (P : A -> Prop) (P' : B -> Prop) R (m : M A) (k : A -> M B) :
  ends Q T P R m -> (forall a, P a -> ends Q T P' R (k a)) -> ends Q T P' R (bind m k).
Proof.
  intros Hm Hk w. destruct (Hm w) as (r & w1 & Heq & Hc & Hr).
  unfold bind. rewrite Heq. destruct r as [a|e| |]; try done.
  - destruct (Hk a Hr w1) as (r2 & w2 & Heq2 & Hc2 & Hr2).
    exists r2, w2. split; [done|]. split; [by eapply continues_trans|done].
  - exists (Throw e), w1. done.
Qed.

Lemma ends_try (P : A -> Prop) R R' (m : M A) (h : exn -> M A) :
  ends Q T P R m -> (forall e, R e -> ends Q T P R' (h e)) -> ends Q T P R' (try_catch m h).
Proof.
  intros Hm Hh w. destruct (Hm w) as (r & w1 & Heq & Hc & Hr).
  unfold try_catch. rewrite Heq. destruct r as [a|e| |]; try done.
  - exists (Ret a), w1. done.
  - destruct (Hh e Hr w1) as (r2 & w2 & Heq2 & Hc2 & Hr2).
    exists r2, w2. split; [done|]. split; [by eapply continues_trans|done].
Qed.

Lemma ends_weaken (P P' : A -> Prop) (R R' : exn -> Prop) (m : M A) :
  (forall a, P a -> P' a) -> (forall e, R e -> R' e) ->
  ends Q T P R m -> ends Q T P' R' m.
Proof.
  intros HP HR Hm w. destruct (Hm w) as (r & w1 & Heq & Hc & Hr).
  exists r, w1. split; [done|]. split; [done|]. destruct r; auto.
Qed.

End Ends.

Lemma ends_relax {A} (Q Q' : request -> Prop) (T T' : Prop) (P : A -> Prop) R (m : M A) :
  (forall c, Q c -> Q' c) -> (T' -> T) -> ends Q T P R m -> ends Q' T' P R m.
Proof.
  intros HQ HT Hm w. destruct (Hm w) as (r & w1 & Heq & Hc & Hr).
  exists r, w1. split; [done|]. split; [|done]. by eapply continues_weaken.
Qed.

Lemma ends_adapt {A} (Q Q' : request -> Prop) (T T' : Prop) (P P' : A -> Prop)
    (R R' : exn -> Prop) (m : M A) :
  ends Q T P R m ->
  (forall c, Q c -> Q' c) -> (T' -> T) -> (forall a, P a -> P' a) ->
  (forall e, R e -> R' e) ->
  ends Q' T' P' R' m.
Proof.
  intros Hm HQ HT HP HR. eapply ends_relax; [exact HQ|exact HT|].
  eapply ends_weaken; [exact HP|exact HR|exact Hm].
Qed.

Lemma ends_emit Q T R e : okEvent Q e -> ends Q T anything R (emit e).
Proof.
  intros H w. exists (Ret tt), (after w [e]). split; [done|].
  split; [|done]. apply continues_after. by constructor.
Qed.

Lemma ends_log Q T R E msg type : ends Q T anything R (log E msg type).
Proof.
  intros w. destruct (log_spec E msg type w) as [line ->].
  exists (Ret tt), (after w [EConsole line]). split; [done|].
  split; [|done]. apply continues_after. by constructor.
Qed.

Lemma ends_sleep Q T R ms : ends Q T anything R (sleep ms).
Proof. by apply ends_emit. Qed.

Lemma ends_call_axios Q T E config :
  Q config -> ends Q T anything anything (call_axios E config).
Proof.
  intros H w. unfold call_axios, bind, emit, of_answer.
  destruct (axios E _ config).
  - eexists _, _. split; [done|]. split; [|done]. apply continues_after. by constructor.
  - eexists _, _. split; [done|]. split; [|done]. apply continues_after. by constructor.
Qed.

Lemma ends_of_answer {A} Q T (a : answer A) : ends Q T anything anything (of_answer a).
Proof.
  intros w. destruct a; eexists _, _; (split; [done|]);
    (split; [apply continues_refl|done]).
Qed.

Lemma ends_set_agent Q T E config proxy :
  ends Q T (fun c => exists a, c = with_agent config a) anything
    (set_agent E config proxy).
Proof.
  unfold set_agent. eapply ends_bind; [apply ends_of_answer|].
  intros a _. apply ends_ret. eauto.
Qed.

Lemma ends_attempt Q T E config proxy :
  (forall a, Q (with_agent config a)) ->
  ends Q T (fun r => exists resp, r = Some resp) anything (attempt E config proxy).
Proof.
  intros HQ. unfold attempt.
  eapply ends_bind; [apply ends_set_agent|].
  intros c [a ->]. eapply ends_bind; [by apply ends_call_axios|].
  intros resp _. apply ends_ret. eauto.
Qed.

(** [makeRequest] with its defaults returns a response or throws. *)
Lemma ends_makeRequest_loop Q T E config proxy maxRetries retryDelay left turn :
  (forall a, Q (with_agent config a)) ->
  (left + turn = S maxRetries)%nat -> (1 <= left)%nat ->
  ends Q T (fun r => exists resp, r = Some resp) anything
    (makeRequest_loop E left config proxy maxRetries retryDelay turn).
Proof.
  intros HQ. revert turn. induction left as [|left IH]; intros turn Hsum Hleft; [lia|].
  cbn [makeRequest_loop].
  eapply ends_try; [by apply ends_attempt|].
  intros e _. case_decide as Hturn; [by apply ends_throw|].
  eapply ends_bind; [apply ends_log|]. intros _ _.
  eapply ends_bind; [apply ends_sleep|]. intros _ _.
  apply IH; lia.
Qed.

Lemma ends_makeRequest Q T E config proxy :
  (forall a, Q (with_agent config a)) ->
  ends Q T (fun r => exists resp, r = Some resp) anything (makeRequest E config proxy).
Proof. intros HQ. apply ends_makeRequest_loop; [done|lia|lia]. Qed.

(** ** Pure results *)

Lemma rends_ret {A} (P : A -> Prop) a : P a -> rends P (Ret a).
Proof. done. Qed.

Lemma rends_bind {A B} (P : A -> Prop) (P' : B -> Prop) r (k : A -> res B) :
  rends P r -> (forall a, P a -> rends P' (k a)) -> rends P' (rbind r k).
Proof. destruct r; simpl; auto. Qed.

Lemma rends_bind_any {A B} (P' : B -> Prop) (r : res A) (k : A -> res B) :
  rends anything r -> (forall a, rends P' (k a)) -> rends P' (rbind r k).
Proof. destruct r; simpl; auto. Qed.

Lemma rends_get_prop v k : rends anything (get_prop v k).
Proof. by destruct v. Qed.

Lemma rends_destructure v k source : rends anything (destructure v k source).
Proof. by destruct v. Qed.

Lemma rends_get_index v i : rends anything (get_index v i).
Proof. by destruct v. Qed.

Lemma rends_toString v : rends anything (toString_method v).
Proof. by destruct v. Qed.

Lemma rends_status_of r : rends anything (status_of r).
Proof. by destruct r. Qed.

Lemma rends_data_of r : rends anything (data_of r).
Proof. by destruct r. Qed.

Ltac pure_step :=
  lazymatch goal with
  | |- rends _ (Ret _) => apply rends_ret
  | |- rends _ (rbind _ _) => apply rends_bind_any; [|intro]
  | |- rends _ (get_prop _ _) => apply rends_get_prop
  | |- rends _ (get_index _ _) => apply rends_get_index
  | |- rends _ (toString_method _) => apply rends_toString
  | |- rends _ (status_of _) => apply rends_status_of
  | |- rends _ (data_of _) => apply rends_data_of
  | |- rends _ (if ?b then _ else _) => destruct b
  end.

Lemma rends_status_and_success r code : rends anything (status_and_success r code).
Proof. unfold status_and_success. repeat pure_step; done. Qed.

Lemma rends_unclaimed quest : rends anything (unclaimed quest).
Proof. unfold unclaimed. repeat pure_step; done. Qed.

Lemma rends_startsWith v p : rends anything (startsWith_method v p).
Proof. by destruct v. Qed.

Lemma rends_slice v n : rends anything (slice_method v n).
Proof. by destruct v. Qed.

Lemma rends_christmasFilter quest : rends anything (christmasFilter quest).
Proof.
  unfold christmasFilter.
  repeat first [pure_step | apply rends_startsWith | apply rends_slice]; done.
Qed.

Lemma rends_filterM f xs :
  (forall x, rends anything (f x)) -> rends anything (filterM f xs).
Proof.
  intros Hf. induction xs as [|x xs IH]; [done|]. cbn [filterM].
  apply rends_bind_any; [apply Hf|]. intros keep.
  apply rends_bind_any; [apply IH|]. done.
Qed.

Lemma rends_array_filter v f :
  (forall x, rends anything (f x)) -> rends anything (array_filter v f).
Proof.
  intros Hf. destruct v; try done. cbn [array_filter].
  apply rends_bind_any; [by apply rends_filterM|]. done.
Qed.

Lemma rends_mono {A} (P P' : A -> Prop) r :
  (forall a, P a -> P' a) -> rends P r -> rends P' r.
Proof. destruct r; simpl; auto. Qed.

Lemma resultObject_failure msg : resultObject (failure msg).
Proof. right. eauto. Qed.

Lemma resultObject_success fields : resultObject (VObj (("success", VBool true) :: fields)).
Proof. left. eauto. Qed.

(** What a computation that cannot throw gives, spelled out. *)
Lemma ends_returns {A} Q (P : A -> Prop) (m : M A) w :
  ends Q True P nothing m ->
  exists a w' sent,
    m w = (Ret a, w') /\ P a
    /\ tokens w' = tokens w /\ wallets w' = wallets w /\ proxies w' = proxies w
    /\ requests (trace w') = requests (trace w) ++ sent /\ Forall Q sent.
Proof.
  intros Hm. destruct (Hm w) as (r & w' & Heq & Hc & Hr).
  destruct r as [a|e| |]; try done.
  destruct (continues_requests _ _ _ _ Hc) as (sent & Hsent & HQ).
  destruct Hc as (Hw & Hp & Ht & _).
  exists a, w', sent. repeat split; auto.
Qed.

Lemma sentAs_with_agent config a : sentAs config (with_agent config a).
Proof. by exists a. Qed.

(** ** The session calls *)

Section Calls.

Variable E : Env.
Variable proxy : option string.

Lemma ends_linkWallet token wallet :
  ends (sentAs (walletRequest token wallet)) True resultObject nothing
    (linkWallet E token wallet proxy).
Proof.
  unfold linkWallet. eapply ends_try with (R := anything).
  - eapply ends_bind; [apply ends_makeRequest, sentAs_with_agent|].
    intros response _.
    eapply ends_bind; [apply ends_lift; [apply rends_status_and_success|done]|].
    intros [] _; apply ends_ret;
      [apply resultObject_success|apply resultObject_failure].
  - intros e _. apply ends_ret, resultObject_failure.
Qed.

Lemma ends_authenticate initData :
  ends (sentAs (authRequest initData)) True resultObject nothing
    (authenticate E initData proxy).
Proof.
  unfold authenticate. eapply ends_try with (R := anything).
  - eapply ends_bind; [apply ends_makeRequest, sentAs_with_agent|].
    intros response _.
    eapply ends_bind; [apply ends_lift; [apply rends_status_and_success|done]|].
    intros [] _; [|apply ends_ret, resultObject_failure].
    apply ends_lift; [|done].
    repeat pure_step. apply resultObject_success.
  - intros e _. apply ends_ret, resultObject_failure.
Qed.

Lemma ends_getUserInfo token :
  ends (sentAs (userRequest token)) True resultObject nothing
    (getUserInfo E token proxy).
Proof.
  unfold getUserInfo. eapply ends_try with (R := anything).
  - eapply ends_bind; [apply ends_makeRequest, sentAs_with_agent|].
    intros response _.
    eapply ends_bind; [apply ends_lift; [apply rends_status_and_success|done]|].
    intros [] _; [|apply ends_ret, resultObject_failure].
    apply ends_lift; [|done].
    repeat pure_step. apply resultObject_success.
  - intros e _. apply ends_ret, resultObject_failure.
Qed.

End Calls.

(** ** The quest calls *)

Section QuestCalls.

Variable E : Env.
Variable proxy : option string.

Lemma ends_getQuestsList token :
  ends (sentAs (questsListRequest token)) True resultObject nothing
    (getQuestsList E token proxy).
Proof.
  unfold getQuestsList. eapply ends_try with (R := anything).
  - eapply ends_bind; [apply ends_makeRequest, sentAs_with_agent|].
    intros response _.
    eapply ends_bind; [apply ends_lift; [apply rends_status_and_success|done]|].
    intros [] _; [|apply ends_ret, resultObject_failure].
    apply ends_lift; [|done].
    repeat first [pure_step | apply rends_array_filter, rends_unclaimed].
    apply resultObject_success.
  - intros e _. apply ends_ret, resultObject_failure.
Qed.

Lemma ends_getChristmasQuests token :
  ends (sentAs (christmasListRequest token)) True resultObject nothing
    (getChristmasQuests E token proxy).
Proof.
  unfold getChristmasQuests. eapply ends_try with (R := anything).
  - eapply ends_bind; [apply ends_makeRequest, sentAs_with_agent|].
    intros response _.
    eapply ends_bind; [apply ends_lift; [apply rends_status_and_success|done]|].
    intros [] _; [|apply ends_ret, resultObject_failure].
    apply ends_lift; [|done].
    repeat first [pure_step | apply rends_array_filter, rends_christmasFilter].
    apply resultObject_success.
  - intros e _. apply ends_ret, resultObject_failure.
Qed.

Lemma ends_claimQuest token questId questData proxy' :
  ends (sentAs (claimRequest token questId)) True resultObject nothing
    (claimQuest E token questId questData proxy').
Proof.
  unfold claimQuest. eapply ends_try with (R := anything).
  - eapply ends_bind; [apply ends_makeRequest, sentAs_with_agent|].
    intros response _. destruct response; [|apply ends_ret, resultObject_failure].
    eapply ends_bind; [apply ends_lift; [apply rends_get_prop|done]|]. intros rewards _.
    eapply ends_bind; [apply ends_lift; [apply rends_get_index|done]|]. intros first _.
    eapply ends_bind; [apply ends_lift; [apply rends_get_prop|done]|]. intros reward _.
    eapply ends_bind; [apply ends_lift; [apply rends_get_prop|done]|]. intros title _.
    eapply ends_bind; [apply ends_log|]. intros _ _.
    apply ends_ret, resultObject_success.
  - intros e _. apply ends_ret, resultObject_failure.
Qed.

Lemma ends_completeQuest token questId :
  ends (fun c => sentAs (completedRequest token questId) c
                 \/ sentAs (claimRequest token questId) c) True
    (fun v => v = VUndefined \/ resultObject v) nothing
    (completeQuest E token questId proxy).
Proof.
  unfold completeQuest. eapply ends_try with (R := anything).
  - eapply ends_bind.
    { eapply ends_adapt; [apply ends_makeRequest, sentAs_with_agent|..]; try done.
      by left. }
    intros response _.
    eapply ends_bind; [apply ends_lift; [apply rends_status_of|done]|]. intros statusCode _.
    eapply ends_bind; [apply ends_lift; [apply rends_data_of|done]|]. intros d _.
    eapply ends_bind; [apply ends_lift; [apply rends_destructure|done]|]. intros success _.
    eapply ends_bind; [apply ends_lift; [apply rends_get_prop|done]|]. intros data _.
    destruct ((statusCode =? 200) || (statusCode =? 201));
      [|apply ends_ret; right; apply resultObject_failure].
    destruct (truthy success); [apply ends_ret; right; apply resultObject_success|].
    destruct (is_true data).
    { eapply ends_bind; [apply ends_log|]. intros _ _.
      eapply ends_bind.
      { eapply ends_adapt; [apply ends_claimQuest|..]; try done. by right. }
      intros _ _. apply ends_ret. by left. }
    destruct (is_false data); [|apply ends_ret; by left].
    eapply ends_bind; [apply ends_log|]. intros _ _. apply ends_ret. by left.
  - intros e _. apply ends_ret. right. apply resultObject_failure.
Qed.

Lemma ends_forEach {A} Q T R (body : A -> M unit) xs :
  (forall x, ends Q T anything R (body x)) -> ends Q T anything R (forEach xs body).
Proof.
  intros Hbody. induction xs as [|x xs IH]; [by apply ends_ret|].
  cbn [forEach]. eapply ends_bind; [apply Hbody|]. intros _ _. apply IH.
Qed.

Lemma ends_for_of Q T v (body : value -> M unit) :
  (forall x, ends Q T anything anything (body x)) ->
  ends Q T anything anything (for_of v body).
Proof.
  intros Hbody. destruct v; try by apply ends_throw. cbn [for_of].
  by apply ends_forEach.
Qed.

Ltac read_prop :=
  eapply ends_bind; [apply ends_lift; [first [apply rends_get_prop | apply rends_toString
                                             | apply rends_status_of]|done]|];
  intros ? _.

Lemma ends_processQuest token quest :
  ends (questTraffic token) True anything anything (processQuest E token proxy quest).
Proof.
  unfold processQuest.
  read_prop. eapply ends_bind; [apply ends_log|]. intros _ _.
  read_prop.
  eapply ends_bind.
  { eapply ends_adapt with (P' := anything); [apply ends_completeQuest|..]; try done.
    intros c [?|?]; right; [left|right]; eauto. }
  intros completeResult _.
  read_prop. destruct (truthy _); cbn [negb].
  - read_prop.
    eapply ends_bind.
    { eapply ends_adapt with (P' := anything); [apply ends_claimQuest|..]; try done.
      intros c ?. right; right; eauto. }
    intros claimResult _. read_prop. destruct (truthy _); cbn [negb].
    + apply ends_sleep.
    + read_prop. read_prop. apply ends_log.
  - read_prop. read_prop. apply ends_log.
Qed.

Lemma ends_processQuests token :
  ends (questTraffic token) True anything nothing (processQuests E token proxy).
Proof.
  unfold processQuests. eapply ends_try with (R := anything).
  - eapply ends_bind.
    { eapply ends_adapt with (P' := anything); [apply ends_getQuestsList|..]; try done.
      intros c ?. by left. }
    intros questsResult _. read_prop. destruct (truthy _); cbn [negb].
    + read_prop. apply ends_for_of. intros x. apply ends_processQuest.
    + read_prop. apply ends_log.
  - intros e _. apply ends_log.
Qed.

Lemma ends_processChristmasQuest token quest :
  ends (seasonalTraffic token) True anything anything
    (processChristmasQuest E token proxy quest).
Proof.
  unfold processChristmasQuest.
  read_prop. eapply ends_bind; [apply ends_log|]. intros _ _.
  read_prop.
  eapply ends_bind.
  { eapply ends_adapt with (P' := anything);
      [apply ends_makeRequest, sentAs_with_agent|..]; try done.
    intros c ?. right; left; eauto. }
  intros completeResult _. read_prop.
  eapply ends_bind with (P := anything); [|intros _ _; apply ends_sleep].
  destruct ((_ =? 200) || _); [|by apply ends_ret].
  read_prop.
  eapply ends_bind.
  { eapply ends_adapt with (P' := anything);
      [apply ends_makeRequest, sentAs_with_agent|..]; try done.
    intros c ?. right; right; eauto. }
  intros [r|] _; [|by apply ends_ret].
  read_prop. destruct (truthy _); [|by apply ends_ret].
  read_prop. destruct (truthy _); [|by apply ends_ret].
  read_prop. destruct (is_defined _); [apply ends_log|by apply ends_ret].
Qed.

Lemma ends_processChristmasQuests token :
  ends (seasonalTraffic token) True anything nothing (processChristmasQuests E token proxy).
Proof.
  unfold processChristmasQuests. eapply ends_try with (R := anything).
  - eapply ends_bind.
    { eapply ends_adapt with (P' := anything); [apply ends_getChristmasQuests|..];
        try done.
      intros c ?. by left. }
    intros questsResult _. read_prop. destruct (truthy _); cbn [negb].
    + read_prop. apply ends_for_of. intros x. apply ends_processChristmasQuest.
    + read_prop. apply ends_log.
  - intros e _. apply ends_log.
Qed.

End QuestCalls.



(** X3. [processQuests] never throws and never exits: whatever the network
    answers it returns.  It leaves the token mapping and the lists of the
    client as they were, and every request it sends is the quest list
    request, a completion request or a claim request, each with the bearer
    token it was given. *)
Theorem processQuests_always_returns E token proxy w :
  exists w' sent,
    processQuests E token proxy w = (Ret tt, w')
    /\ tokens w' = tokens w /\ wallets w' = wallets w /\ proxies w' = proxies w
    /\ requests (trace w') = requests (trace w) ++ sent
    /\ Forall (questTraffic token) sent.
Proof.
  destruct (ends_returns _ _ _ w (ends_processQuests E proxy token))
    as ([] & w' & sent & H & _ & H'). eauto.
Qed.

(** X4. [processChristmasQuests] never throws and never exits; it leaves the
    fields of the client as they were, and every request it sends is the
    seasonal list request, a completion request or a claim request, each with
    the bearer token it was given. *)
Theorem processChristmasQuests_always_returns E token proxy w :
  exists w' sent,
    processChristmasQuests E token proxy w = (Ret tt, w')
    /\ tokens w' = tokens w /\ wallets w' = wallets w /\ proxies w' = proxies w
    /\ requests (trace w') = requests (trace w) ++ sent
    /\ Forall (seasonalTraffic token) sent.
Proof.
  destruct (ends_returns _ _ _ w (ends_processChristmasQuests E proxy token))
    as ([] & w' & sent & H & _ & H'). eauto.
Qed.

(** ** More on isExpired *)

(** X5. A token whose payload parses and has no [exp], or an [exp] that is
    falsy ([undefined], [null], [0], [false], the empty string), is reported
    as not expired: [isExpired] logs one warning line and returns false.  The
    payload need not be an object: a number, a string or an array has no
    [exp] either. *)
Theorem isExpired_without_expiry E token segment parsed exp w :
  Str.split "." token !! 1%nat = Some segment ->
  JSON_parse E (Buffer_toString E (Base64.decode segment)) = Some parsed ->
  get_prop parsed "exp" = Ret exp ->
  truthy exp = false ->
  exists line, isExpired E (VStr token) w = (Ret false, after w [EConsole line]).
Proof.
  intros Hmid Hparse Hexp Hfalsy.
  rewrite (isExpired_parsed E token segment w Hmid parsed Hparse).
  unfold try_catch, bind at 1, lift at 1. rewrite Hexp, Hfalsy.
  unfold bind. step_log. unfold ret. eauto.
Qed.

Lemma isExpired_without_expiry_witness :
  exists line,
    isExpired Script.tokenEnv (VStr "h.e30.s") start
    = (Ret false, after start [EConsole line]).
Proof.
  apply (isExpired_without_expiry Script.tokenEnv "h.e30.s" "e30" (VObj []) VUndefined
           start); reflexivity.
Defined.

(** X6. A payload that parses but whose expiry cannot be read is taken for
    expired: when the payload is [null] (reading [exp] throws), or when
    [exp] is truthy and not a number, for instance the string
    ["1900000000"] ([DateTime.fromSeconds] throws), the [catch] logs the
    error and [isExpired] returns true, whatever the clock says. *)
Theorem isExpired_unreadable_expiry E token segment parsed w :
  Str.split "." token !! 1%nat = Some segment ->
  JSON_parse E (Buffer_toString E (Base64.decode segment)) = Some parsed ->
  (exists e, get_prop parsed "exp" = Throw e)
  \/ (exists exp,
        get_prop parsed "exp" = Ret exp /\ truthy exp = true
        /\ forall n, exp <> VNum n) ->
  exists line, isExpired E (VStr token) w = (Ret true, after w [EConsole line]).
Proof.
  intros Hmid Hparse Hexp.
  rewrite (isExpired_parsed E token segment w Hmid parsed Hparse).
  unfold try_catch, bind at 1, lift at 1.
  destruct Hexp as [[e ->]|(exp & -> & -> & Hnum)].
  - unfold bind. step_log. unfold ret. eauto.
  - unfold bind at 1, lift at 1.
    destruct exp; try (unfold formatExpiry; unfold bind; step_log; unfold ret; eauto).
    by destruct (Hnum n).
Qed.

Lemma isExpired_unreadable_expiry_witness :
  (exists line,
      isExpired Script.loosePayloads (VStr "h.bnVsbA.s") start
      = (Ret true, after start [EConsole line]))
  /\ (exists line,
      isExpired Script.loosePayloads (VStr ("h." +:+ Script.expString +:+ ".s")) start
      = (Ret true, after start [EConsole line])).
Proof.
  split.
  - apply (isExpired_unreadable_expiry Script.loosePayloads "h.bnVsbA.s" "bnVsbA" VNull
             start); [reflexivity|reflexivity|].
    left. eexists. reflexivity.
  - apply (isExpired_unreadable_expiry Script.loosePayloads
             ("h." +:+ Script.expString +:+ ".s") Script.expString
             (VObj [("exp", VStr "1900000000")]) start); [reflexivity|reflexivity|].
    right. exists (VStr "1900000000"). repeat split. discriminate.
Defined.

(** ** More on makeRequest *)

(** X7. In the proxy script, when the proxy agent cannot be built (the
    constructor throws inside the [try]) [makeRequest] sends no request at
    all; it still goes through its three turns, pausing 5000 ms twice, and
    throws the constructor's error. *)
Theorem makeRequest_sends_nothing_without_agent E config proxy e w :
  proxyAgent E proxy = Throws e ->
  exists w',
    makeRequest E config proxy w = (Throw e, w')
    /\ traffic (trace w') = traffic (trace w) ++ [ESleep 5000; ESleep 5000]
    /\ requests (trace w') = requests (trace w).
Proof.
  intros H. unfold makeRequest, makeRequest_with. cbn [makeRequest_loop].
  unfold try_catch at 1. rewrite (set_agent_fails _ _ _ e _ H).
  case_decide; [done|]. unfold bind at 1. step_log.
  unfold bind at 1, sleep, emit.
  unfold try_catch at 1. rewrite (set_agent_fails _ _ _ e _ H).
  case_decide; [done|]. unfold bind at 1. step_log.
  unfold bind at 1.
  unfold try_catch at 1. rewrite (set_agent_fails _ _ _ e _ H).
  case_decide; [|done]. unfold throw.
  eexists. split; [reflexivity|]. rewrite !after_after. cbn [app].
  unfold after; cbn [trace]. rewrite traffic_app, requests_app. cbn.
  by rewrite app_nil_r.
Qed.

Lemma makeRequest_sends_nothing_without_agent_witness :
  exists w',
    makeRequest Script.agentless (questsListRequest (VStr "t")) (Some "http://") start
    = (Throw Script.invalidUrl, w')
    /\ traffic (trace w') = traffic (trace start) ++ [ESleep 5000; ESleep 5000]
    /\ requests (trace w') = requests (trace start).
Proof.
  apply (makeRequest_sends_nothing_without_agent Script.agentless
           (questsListRequest (VStr "t")) (Some "http://") Script.invalidUrl start).
  reflexivity.
Defined.

Section Retries.

Variable E : Env.
Variables (config config' : request) (proxy : option string).
Hypothesis agent_ready : forall w, set_agent E config proxy w = (Ret config', w).
Variables (maxRetries : nat) (retryDelay : Z).

(** [j] failed turns that are not the last: [j] requests, each followed by a
    pause, and the loop is [j] turns further. *)
Lemma loop_fails j : forall left turn w (err : nat -> exn),
  (left + turn = S maxRetries)%nat ->
  (j < left)%nat ->
  (forall k, (k < j)%nat ->
     axios E (List.length (requests (trace w)) + k) config' = Throws (err k)) ->
  exists w1,
    makeRequest_loop E left config proxy maxRetries retryDelay turn w
    = makeRequest_loop E (left - j) config proxy maxRetries retryDelay (turn + j) w1
    /\ traffic (trace w1)
       = traffic (trace w) ++ concat (replicate j [EAxios config'; ESleep retryDelay])
    /\ List.length (requests (trace w1)) = (List.length (requests (trace w)) + j)%nat.
Proof using agent_ready.
  induction j as [|j IH]; intros left turn w err Hsum Hj Herr.
  - exists w. rewrite Nat.sub_0_r, !Nat.add_0_r. cbn. by rewrite app_nil_r.
  - destruct left as [|left]; [lia|].
    destruct (loop_retry E config config' proxy agent_ready left maxRetries retryDelay
                turn w (err 0%nat)) as [line Hstep].
    { rewrite <- (Herr 0%nat) by lia. by rewrite Nat.add_0_r. }
    { lia. }
    assert (Hn : List.length
              (requests (trace (after w [EAxios config'; EConsole line; ESleep retryDelay])))
            = S (List.length (requests (trace w)))).
    { rewrite requests_after, length_app. cbn. lia. }
    destruct (IH left (S turn) (after w [EAxios config'; EConsole line; ESleep retryDelay])
                (fun k => err (S k))) as (w1 & Hloop & Htraffic & Hlen).
    { lia. }
    { lia. }
    { intros k Hk. rewrite Hn. rewrite <- (Herr (S k)) by lia. f_equal. lia. }
    exists w1. split; [|split].
    + rewrite Hstep, Hloop. f_equal; lia.
    + rewrite Htraffic. unfold after; cbn [trace]. rewrite traffic_app. cbn.
      by rewrite <- app_assoc.
    + rewrite Hlen, Hn. lia.
Qed.

End Retries.

(** X8. For any attempt budget [maxRetries >= 1] and any delay: when the
    first [j] attempts throw and attempt [j + 1] is answered, [makeRequest]
    returns that response after exactly [j + 1] requests and [j] pauses of
    the delay; when all [maxRetries] attempts throw, it sends exactly
    [maxRetries] requests with [maxRetries - 1] pauses between them and
    throws the error of the last. *)
Theorem makeRequest_with_budget E config proxy a m retryDelay j w (err : nat -> exn) :
  proxyAgent E proxy = Returns a ->
  (j <= m)%nat ->
  (forall k, (k < j)%nat ->
     axios E (List.length (requests (trace w)) + k) (with_agent config a)
     = Throws (err k)) ->
  exists w',
    traffic (trace w')
    = traffic (trace w)
        ++ concat (replicate j [EAxios (with_agent config a); ESleep retryDelay])
        ++ [EAxios (with_agent config a)]
    /\ match axios E (List.length (requests (trace w)) + j) (with_agent config a) with
       | Returns r =>
           makeRequest_with E config proxy (S m) retryDelay w = (Ret (Some r), w')
       | Throws e =>
           j = m -> makeRequest_with E config proxy (S m) retryDelay w = (Throw e, w')
       end.
Proof.
  intros Ha Hj Herr.
  assert (Hagent : forall w0,
             set_agent E config proxy w0 = (Ret (with_agent config a), w0))
    by (intros w0; by apply set_agent_ready).
  destruct (loop_fails E config (with_agent config a) proxy Hagent (S m) retryDelay j
              (S m) 1%nat w err) as (w1 & Hloop & Htraffic & Hlen); [lia|lia|done|].
  exists (after w1 [EAxios (with_agent config a)]). split.
  { unfold after; cbn [trace]. rewrite traffic_app, Htraffic. cbn.
    by rewrite <- app_assoc. }
  unfold makeRequest_with. rewrite Hloop. rewrite <- Hlen.
  destruct (axios E (List.length (requests (trace w1))) (with_agent config a))
    as [r|e] eqn:Hax.
  - replace (S m - j)%nat with (S (m - j)) by lia.
    by apply loop_success.
  - intros ->. replace (S m - m)%nat with 1%nat by lia.
    replace (1 + m)%nat with (S m) by lia.
    by apply loop_last.
Qed.

Lemma makeRequest_with_budget_witness :
  exists w',
    traffic (trace w')
    = traffic (trace start)
        ++ concat (replicate 4 [EAxios (with_agent (questsListRequest (VStr "t")) None);
                                ESleep 250])
        ++ [EAxios (with_agent (questsListRequest (VStr "t")) None)]
    /\ match axios (Script.env [] [] [] None 0)
               (List.length (requests (trace start)) + 4)
               (with_agent (questsListRequest (VStr "t")) None) with
       | Returns r =>
           makeRequest_with (Script.env [] [] [] None 0) (questsListRequest (VStr "t")) None
             5 250 start = (Ret (Some r), w')
       | Throws e =>
           4%nat = 4%nat ->
           makeRequest_with (Script.env [] [] [] None 0) (questsListRequest (VStr "t")) None
             5 250 start = (Throw e, w')
       end.
Proof.
  apply (makeRequest_with_budget (Script.env [] [] [] None 0) (questsListRequest (VStr "t"))
           None None 4 250 4 start (fun _ => Script.dropped)).
  - reflexivity.
  - lia.
  - intros k Hk. do 4 (destruct k as [|k]; [reflexivity|]). lia.
Defined.

(** ** countdown *)

Lemma countdown_from_pauses i : forall w,
  exists w',
    countdown_from i w = (Ret tt, w')
    /\ traffic (trace w') = traffic (trace w) ++ replicate (S i) (ESleep 1000)
    /\ tokens w' = tokens w /\ wallets w' = wallets w /\ proxies w' = proxies w.
Proof.
  induction i as [|i IH]; intros w.
  - cbn [countdown_from]. unfold bind, emit, sleep, emit, ret.
    eexists. split; [reflexivity|]. split; [|done].
    cbn [trace after]. rewrite !traffic_app. cbn. by rewrite <- !app_assoc.
  - cbn [countdown_from]. unfold bind at 1, emit at 1.
    unfold bind at 1, emit at 1. unfold bind at 1, sleep at 1, emit at 1.
    destruct (IH (after (after (after w [ECursorTo 0])
                    [EStdout ("===== Wait " +:+ pretty (S i)
                              +:+ " seconds to continue loop =====")])
                    [ESleep 1000])) as (w' & -> & Htraffic & Hfields).
    exists w'. split; [done|]. split; [|done].
    rewrite Htraffic. cbn [trace after]. rewrite !traffic_app. cbn.
    by rewrite <- !app_assoc.
Qed.

(** X9. [countdown(seconds)] returns after [seconds + 1] pauses of 1000 ms,
    one more than its argument: the loop runs from [seconds] down to 0
    inclusive.  It sends no request and leaves the fields of the client as
    they were. *)
Theorem countdown_waits_one_more E seconds w :
  exists w',
    countdown E seconds w = (Ret tt, w')
    /\ traffic (trace w') = traffic (trace w) ++ replicate (S seconds) (ESleep 1000)
    /\ tokens w' = tokens w /\ wallets w' = wallets w /\ proxies w' = proxies w.
Proof.
  unfold countdown.
  destruct (countdown_from_pauses seconds w) as (w1 & H1 & Htraffic & Ht & Hw & Hp).
  rewrite (bind_Ret _ _ _ _ _ H1). step_log.
  eexists. split; [reflexivity|]. split; [|done].
  cbn [trace after]. rewrite traffic_app, Htraffic. cbn. by rewrite app_nil_r.
Qed.

(** ** The ordinary list *)

Lemma unclaimed_spec quest :
  progressRecord quest ->
  exists keep, unclaimed quest = Ret keep /\ (keep = true <-> notClaimed quest).
Proof.
  intros (progress & Hprogress & Hdef & Hnull).
  destruct (get_prop_of_defined progress "claimed" Hdef Hnull) as [claimed Hclaimed].
  unfold unclaimed. rewrite Hprogress. cbn [rbind]. rewrite Hclaimed. cbn [rbind].
  exists (negb (truthy claimed)). split; [done|].
  rewrite negb_true_iff. split.
  - intros H. by exists progress, claimed.
  - intros (p & c & Hp & Hc & Hf). congruence.
Qed.

(** X10. When the list request is answered with status 200 and a successful
    body whose data is an array of quests that each have a progress,
    [getQuestsList] returns, in their order, exactly the quests whose
    progress is not claimed: a quest with [progress.claimed] true is never
    handed to the loop. *)
Theorem getQuestsList_keeps_unclaimed E token proxy w resp w1 success quests :
  makeRequest E (questsListRequest token) proxy w = (Ret (Some resp), w1) ->
  status resp = 200 ->
  get_prop (body resp) "success" = Ret success ->
  truthy success = true ->
  get_prop (body resp) "data" = Ret (VArr quests) ->
  Forall progressRecord quests ->
  exists kept,
    getQuestsList E token proxy w
    = (Ret (VObj [("success", VBool true); ("data", VArr kept)]), w1)
    /\ sublist kept quests
    /\ (forall quest, quest ∈ kept <-> quest ∈ quests /\ notClaimed quest).
Proof.
  intros Hreq Hstatus Hsuccess Htruthy Hdata Hrecords.
  destruct (filterM_spec unclaimed notClaimed quests) as (kept & Hkept & Hsub & Hmem).
  { eapply Forall_impl; [exact Hrecords|]. apply unclaimed_spec. }
  exists kept. split; [|done].
  unfold getQuestsList, try_catch.
  rewrite (bind_Ret _ _ _ _ _ Hreq).
  unfold bind at 1, lift at 1, status_and_success.
  cbn [status_of data_of rbind]. rewrite Hstatus. cbn [Z.eqb Pos.eqb negb].
  rewrite Hsuccess. cbn [rbind]. rewrite Htruthy.
  unfold lift. cbn [data_of rbind]. rewrite Hdata. cbn [rbind array_filter].
  rewrite Hkept. reflexivity.
Qed.

Lemma getQuestsList_keeps_unclaimed_witness :
  exists kept,
    getQuestsList Script.ordinary (VStr "t") None start
    = (Ret (VObj [("success", VBool true); ("data", VArr kept)]),
       after start [EAxios (questsListRequest (VStr "t"))])
    /\ sublist kept [Script.claimedAlready; Script.first; Script.second]
    /\ (forall quest,
          quest ∈ kept
          <-> quest ∈ [Script.claimedAlready; Script.first; Script.second]
              /\ notClaimed quest).
Proof.
  apply (getQuestsList_keeps_unclaimed Script.ordinary (VStr "t") None start
           (Response 200
              (Script.envelope true
                 (VArr [Script.claimedAlready; Script.first; Script.second])))
           (after start [EAxios (questsListRequest (VStr "t"))]) (VBool true)).
  - reflexivity.
  - reflexivity.
  - reflexivity.
  - reflexivity.
  - reflexivity.
  - repeat (apply Forall_cons_2; [eexists; repeat split; discriminate|]).
    apply Forall_nil_2.
Defined.

Lemma filterM_throws (f : value -> res bool) xs :
  (forall x, rends anything (f x)) ->
  Exists (fun x => exists e, f x = Throw e) xs ->
  exists e, filterM f xs = Throw e.
Proof.
  intros Hf. induction 1 as [x xs [e He]|x xs _ [e IH]]; cbn [filterM].
  - rewrite He. eauto.
  - specialize (Hf x). destruct (f x) as [keep|e'| |]; try done; cbn [rbind]; [|eauto].
    rewrite IH. eauto.
Qed.

(** X11. One quest without [progress] spoils the whole list: the filter
    throws on it, and [getQuestsList] reports a failure although the request
    was answered with status 200 and a successful body; the quests before
    and after it are not returned. *)
Theorem getQuestsList_fails_on_quest_without_progress
    E token proxy w resp w1 success quests :
  makeRequest E (questsListRequest token) proxy w = (Ret (Some resp), w1) ->
  status resp = 200 ->
  get_prop (body resp) "success" = Ret success ->
  truthy success = true ->
  get_prop (body resp) "data" = Ret (VArr quests) ->
  Exists (fun quest => get_prop quest "progress" = Ret VUndefined) quests ->
  exists msg, getQuestsList E token proxy w = (Ret (failure msg), w1).
Proof.
  intros Hreq Hstatus Hsuccess Htruthy Hdata Hbad.
  destruct (filterM_throws unclaimed quests rends_unclaimed) as [e He].
  { eapply Exists_impl; [exact Hbad|]. intros quest Hq.
    unfold unclaimed. rewrite Hq. cbn. eauto. }
  exists (message e).
  unfold getQuestsList, try_catch.
  rewrite (bind_Ret _ _ _ _ _ Hreq).
  unfold bind at 1, lift at 1, status_and_success.
  cbn [status_of data_of rbind]. rewrite Hstatus. cbn [Z.eqb Pos.eqb negb].
  rewrite Hsuccess. cbn [rbind]. rewrite Htruthy.
  unfold lift. cbn [data_of rbind]. rewrite Hdata. cbn [rbind array_filter].
  rewrite He. reflexivity.
Qed.

Lemma getQuestsList_fails_on_quest_without_progress_witness :
  exists msg,
    getQuestsList Script.poisoned (VStr "t") None start
    = (Ret (failure msg), after start [EAxios (questsListRequest (VStr "t"))]).
Proof.
  apply (getQuestsList_fails_on_quest_without_progress Script.poisoned (VStr "t") None
           start
           (Response 200
              (Script.envelope true (VArr [Script.first; Script.bare; Script.second])))
           (after start [EAxios (questsListRequest (VStr "t"))]) (VBool true)
           [Script.first; Script.bare; Script.second]).
  - reflexivity.
  - reflexivity.
  - reflexivity.
  - reflexivity.
  - reflexivity.
  - apply Exists_cons_tl, Exists_cons_hd. reflexivity.
Defined.

(** ** authenticate *)

(** X12. On an answer with status 201 and a successful body whose data is
    the pair of a token and a user record, [authenticate] returns
    [success: true] with that token, the balance of the record's [gameData]
    and the username, first name and wallet of its [userData], exactly as
    the body has them. *)
Theorem authenticate_reads_token_and_balance
    E initData proxy w resp w1 success token userData rest gameData balance user :
  makeRequest E (authRequest initData) proxy w = (Ret (Some resp), w1) ->
  status resp = 201 ->
  get_prop (body resp) "success" = Ret success ->
  truthy success = true ->
  get_prop (body resp) "data" = Ret (VArr (token :: userData :: rest)) ->
  get_prop userData "gameData" = Ret gameData ->
  get_prop gameData "balance" = Ret balance ->
  get_prop userData "userData" = Ret (VObj user) ->
  authenticate E initData proxy w
  = (Ret (VObj [("success", VBool true); ("token", token); ("balance", balance);
                ("username", default VUndefined (assoc "username" user));
                ("firstname", default VUndefined (assoc "firstname" user));
                ("wallet", default VUndefined (assoc "wallet" user))]), w1).
Proof.
  intros Hreq Hstatus Hsuccess Htruthy Hdata Hgame Hbalance Huser.
  unfold authenticate, try_catch. fold (authRequest initData).
  rewrite (bind_Ret _ _ _ _ _ Hreq).
  unfold bind at 1, lift at 1, status_and_success.
  cbn [status_of data_of rbind]. rewrite Hstatus. cbn [Z.eqb Pos.eqb negb].
  rewrite Hsuccess. cbn [rbind]. rewrite Htruthy.
  unfold lift. cbn [data_of rbind]. rewrite Hdata. cbn [rbind].
  rewrite get_index_head. cbn [rbind].
  change (get_index (VArr (token :: userData :: rest)) 1) with (Ret userData).
  cbn [rbind]. rewrite Hgame. cbn [rbind]. rewrite Hbalance. cbn [rbind].
  rewrite Huser. reflexivity.
Qed.

Lemma authenticate_reads_token_and_balance_witness :
  authenticate Script.signedIn (VStr "query_id=1") None start
  = (Ret (VObj [("success", VBool true); ("token", VStr "h.e30.s");
                ("balance", VNum 1500);
                ("username",
                 default VUndefined
                   (assoc "username"
                      [("username", VStr "ann"); ("firstname", VStr "Ann");
                       ("wallet", VStr "UQwallet1")]));
                ("firstname",
                 default VUndefined
                   (assoc "firstname"
                      [("username", VStr "ann"); ("firstname", VStr "Ann");
                       ("wallet", VStr "UQwallet1")]));
                ("wallet",
                 default VUndefined
                   (assoc "wallet"
                      [("username", VStr "ann"); ("firstname", VStr "Ann");
                       ("wallet", VStr "UQwallet1")]))]),
     after start [EAxios (authRequest (VStr "query_id=1"))]).
Proof.
  apply (authenticate_reads_token_and_balance Script.signedIn (VStr "query_id=1") None
           start
           (Response 201
              (Script.envelope true
                 (VArr [VStr "h.e30.s"; Script.userRecord 1500 (VStr "UQwallet1")])))
           (after start [EAxios (authRequest (VStr "query_id=1"))]) (VBool true)
           (VStr "h.e30.s") (Script.userRecord 1500 (VStr "UQwallet1")) []
           (VObj [("balance", VNum 1500)]) (VNum 1500)); reflexivity.
Defined.

(** X13. [authenticate] accepts status 201 only: an answer with any other
    status, 200 included, is reported as [Authentication failed], whatever
    its body carries, and nothing is read from it. *)
Theorem authenticate_requires_201 E initData proxy w resp w1 :
  makeRequest E (authRequest initData) proxy w = (Ret (Some resp), w1) ->
  status resp <> 201 ->
  authenticate E initData proxy w = (Ret (failure "Authentication failed"), w1).
Proof.
  intros Hreq Hstatus.
  unfold authenticate, try_catch. fold (authRequest initData).
  rewrite (bind_Ret _ _ _ _ _ Hreq).
  unfold bind at 1, lift at 1, status_and_success.
  cbn [status_of rbind]. rewrite (proj2 (Z.eqb_neq _ _) Hstatus). reflexivity.
Qed.

Lemma authenticate_requires_201_witness :
  authenticate Script.signedIn200 (VStr "query_id=1") None start
  = (Ret (failure "Authentication failed"),
     after start [EAxios (authRequest (VStr "query_id=1"))]).
Proof.
  apply (authenticate_requires_201 Script.signedIn200 (VStr "query_id=1") None start
           (Response 200
              (Script.envelope true
                 (VArr [VStr "h.e30.s"; Script.userRecord 1500 (VStr "UQwallet1")])))).
  - reflexivity.
  - simpl. lia.
Defined.

(** ** More on the quest engine *)



Lemma ends_nothing_requests T w w' :
  continues (fun _ => False) T w w' -> requests (trace w') = requests (trace w).
Proof.
  intros Hc. destruct (continues_requests _ _ _ _ Hc) as (sent & -> & Hsent).
  destruct sent as [|c sent]; [by rewrite app_nil_r|].
  by apply Forall_cons in Hsent as [[] _].
Qed.

(** What the seasonal loop does with the answer to a claim: it reads the
    body and logs at most one line. *)
Lemma ends_seasonal_report E (r0 : response) :
  ends (fun _ => False) True anything anything
    (let! ok := lift (get_prop (body r0) "success") in
     if truthy ok then
       let! payload := lift (get_prop (body r0) "data") in
       if truthy payload then
         let! amount := lift (get_prop payload "amount") in
         if is_defined amount then
           log E ("Claim Christmas successfully, received " +:+ ToString amount
                  +:+ " PAWS") "success"
         else ret tt
       else ret tt
     else ret tt).
Proof.
  eapply ends_bind; [apply ends_lift; [apply rends_get_prop|done]|]. intros ok _.
  destruct (truthy ok); [|by apply ends_ret].
  eapply ends_bind; [apply ends_lift; [apply rends_get_prop|done]|]. intros payload _.
  destruct (truthy payload); [|by apply ends_ret].
  eapply ends_bind; [apply ends_lift; [apply rends_get_prop|done]|]. intros amount _.
  destruct (is_defined amount); [apply ends_log|by apply ends_ret].
Qed.

(** X15. In the seasonal loop the claim depends on the status alone: when the
    completion is answered with status 200 or 201, the claim request for the
    same quest is sent next, whatever the body of the answer says, and
    nothing else is sent for this quest. *)
Theorem seasonal_claim_follows_status
    E token proxy quest w title questId resp w1 :
  get_prop quest "title" = Ret title ->
  get_prop quest "_id" = Ret questId ->
  makeRequest E (completedRequest token questId) proxy
    (snd (log E ("Processing Christmas quest: " +:+ ToString title) "info" w))
  = (Ret (Some resp), w1) ->
  status resp = 200 \/ status resp = 201 ->
  exists a n r w',
    proxyAgent E proxy = Returns a
    /\ (1 <= n <= 3)%nat
    /\ processChristmasQuest E token proxy quest w = (r, w')
    /\ rends anything r
    /\ requests (trace w')
       = requests (trace w1) ++ replicate n (with_agent (claimRequest token questId) a).
Proof.
  intros Htitle Hid Hreq Hstatus.
  destruct (makeRequest_response_agent _ _ _ _ _ _ Hreq) as [a Ha].
  destruct (makeRequest_sends E (claimRequest token questId)
              (with_agent (claimRequest token questId) a) proxy
              (fun w0 => set_agent_ready E _ proxy a w0 Ha) w1)
    as (cr & w2 & n & Hclaim & Hcr & Hn & Hsent & _).
  exists a, n.
  unfold processChristmasQuest.
  unfold bind at 1, lift at 1. rewrite Htitle.
  unfold bind at 1. revert Hreq. step_log. cbn [snd]. intros Hreq.
  unfold bind at 1, lift at 1. rewrite Hid.
  unfold bind at 1. rewrite Hreq.
  unfold bind at 1, lift at 1. cbn [status_of].
  assert ((status resp =? 200) || (status resp =? 201) = true) as ->.
  { destruct Hstatus as [-> | ->]; reflexivity. }
  unfold bind at 1. unfold bind at 1, lift at 1.
  unfold bind at 1. rewrite Hclaim.
  destruct Hcr as [[r0 ->]|[e ->]].
  - destruct (ends_seasonal_report E r0 w2) as (r' & w3 & Heq & Hc & Hr').
    rewrite Heq. apply ends_nothing_requests in Hc.
    destruct r' as [[]|e| |]; try done.
    + eexists _, _. split; [done|]. split; [done|]. split; [reflexivity|].
      split; [done|]. cbn [trace after]. rewrite requests_app, Hc, Hsent. cbn.
      by rewrite app_nil_r.
    + eexists _, _. split; [done|]. split; [done|]. split; [reflexivity|].
      split; [done|]. by rewrite Hc, Hsent.
  - eexists _, _. split; [done|]. split; [done|]. split; [reflexivity|]. done.
Qed.

Lemma seasonal_claim_follows_status_witness :
  exists a n r w',
    proxyAgent Script.refusedBody None = Returns a
    /\ (1 <= n <= 3)%nat
    /\ processChristmasQuest Script.refusedBody (VStr "t") None Script.plain3 start
       = (r, w')
    /\ rends anything r
    /\ requests (trace w')
       = requests
           (trace (after (snd (log Script.refusedBody
                                 ("Processing Christmas quest: " +:+ ToString (VStr "Tree"))
                                 "info" start))
                     [EAxios (completedRequest (VStr "t") (VStr "p3"))]))
           ++ replicate n (with_agent (claimRequest (VStr "t") (VStr "p3")) a).
Proof.
  apply (seasonal_claim_follows_status Script.refusedBody (VStr "t") None Script.plain3
           start (VStr "Tree") (VStr "p3")
           (Response 200 (Script.envelope false (VStr "not eligible")))).
  - reflexivity.
  - reflexivity.
  - reflexivity.
  - left. reflexivity.
Defined.

(** X16. In the seasonal loop a request that fails after its attempts is
    caught by nothing but the [try] around the whole loop: when the
    completion request of a quest throws, the loop ends there, with that
    error, and the quests after it are not visited. *)
Theorem seasonal_loop_stops_on_failed_request
    E token proxy quest rest w title questId e w1 :
  get_prop quest "title" = Ret title ->
  get_prop quest "_id" = Ret questId ->
  makeRequest E (completedRequest token questId) proxy
    (snd (log E ("Processing Christmas quest: " +:+ ToString title) "info" w))
  = (Throw e, w1) ->
  forEach (quest :: rest) (processChristmasQuest E token proxy) w = (Throw e, w1).
Proof.
  intros Htitle Hid Hreq. apply forEach_throws.
  unfold processChristmasQuest.
  unfold bind at 1, lift at 1. rewrite Htitle.
  unfold bind at 1. revert Hreq. step_log. cbn [snd]. intros Hreq.
  unfold bind at 1, lift at 1. rewrite Hid.
  unfold bind at 1. by rewrite Hreq.
Qed.

Lemma seasonal_loop_stops_on_failed_request_witness :
  forEach [Script.plain3; Script.plain7]
    (processChristmasQuest (Script.env [] [] [] None 0) (VStr "t") None) start
  = (Throw Script.dropped,
     snd (makeRequest (Script.env [] [] [] None 0)
            (completedRequest (VStr "t") (VStr "p3")) None
            (snd (log (Script.env [] [] [] None 0)
                    ("Processing Christmas quest: " +:+ ToString (VStr "Tree")) "info"
                    start)))).
Proof.
  apply (seasonal_loop_stops_on_failed_request (Script.env [] [] [] None 0) (VStr "t") None
           Script.plain3 [Script.plain7] start (VStr "Tree") (VStr "p3") Script.dropped);
    reflexivity.
Defined.

Lemma failure_success msg : get_prop (failure msg) "success" = Ret (VBool false).
Proof. reflexivity. Qed.

Lemma failure_error msg : get_prop (failure msg) "error" = Ret (VStr msg).
Proof. reflexivity. Qed.

(** X17. When the list cannot be fetched, nothing is completed or claimed:
    if [getQuestsList] reports a failure, [processQuests] logs one line and
    returns; and, on its own, if [getChristmasQuests] reports a failure,
    [processChristmasQuests] logs one line and returns. *)
Theorem nothing_processed_when_list_fails E token proxy w :
  (forall msg w1,
      getQuestsList E token proxy w = (Ret (failure msg), w1) ->
      exists line, processQuests E token proxy w = (Ret tt, after w1 [EConsole line]))
  /\ (forall msg w1,
        getChristmasQuests E token proxy w = (Ret (failure msg), w1) ->
        exists line,
          processChristmasQuests E token proxy w = (Ret tt, after w1 [EConsole line])).
Proof.
  split.
  - intros msg w1 Hlist.
    unfold processQuests, try_catch. rewrite (bind_Ret _ _ _ _ _ Hlist).
    unfold bind at 1, lift at 1. rewrite failure_success.
    cbn [truthy negb]. unfold bind at 1, lift at 1. rewrite failure_error.
    step_log. eauto.
  - intros msg w1 Hseasonal.
    unfold processChristmasQuests, try_catch. rewrite (bind_Ret _ _ _ _ _ Hseasonal).
    unfold bind at 1, lift at 1. rewrite failure_success.
    cbn [truthy negb]. unfold bind at 1, lift at 1. rewrite failure_error.
    step_log. eauto.
Qed.

Lemma nothing_processed_when_list_fails_witness :
  (exists line,
      processQuests (Script.env [] [] [] None 0) (VStr "t") None start
      = (Ret tt,
         after (snd (getQuestsList (Script.env [] [] [] None 0) (VStr "t") None start))
           [EConsole line]))
  /\ (exists line,
        processChristmasQuests (Script.env [] [] [] None 0) (VStr "t") None start
        = (Ret tt,
           after (snd (getChristmasQuests (Script.env [] [] [] None 0) (VStr "t") None
                         start))
             [EConsole line])).
Proof.
  split.
  - apply (proj1 (nothing_processed_when_list_fails (Script.env [] [] [] None 0)
                    (VStr "t") None start) "socket hang up").
    reflexivity.
  - apply (proj2 (nothing_processed_when_list_fails (Script.env [] [] [] None 0)
                    (VStr "t") None start) "socket hang up").
    reflexivity.
Defined.

(** X18. A quest whose completion is reported as a failure (a network error
    after the attempts, or a status other than 200/201) is skipped: the
    failure is logged, no claim is sent and no pause is made, and the loop of
    [processQuests] goes on with the quests that follow. *)
Theorem ordinary_loop_continues_after_failure
    E token proxy quest rest w title questId msg w1 :
  get_prop quest "title" = Ret title ->
  get_prop quest "_id" = Ret questId ->
  completeQuest E token questId proxy
    (snd (log E ("Processing task: " +:+ ToString title) "info" w))
  = (Ret (failure msg), w1) ->
  exists line,
    forEach (quest :: rest) (processQuest E token proxy) w
    = forEach rest (processQuest E token proxy) (after w1 [EConsole line]).
Proof.
  intros Htitle Hid Hcomplete. cbn [forEach].
  unfold bind at 1. unfold processQuest at 1.
  unfold bind at 1, lift at 1. rewrite Htitle.
  unfold bind at 1. revert Hcomplete. step_log. cbn [snd]. intros Hcomplete.
  unfold bind at 1, lift at 1. rewrite Hid.
  unfold bind at 1. rewrite Hcomplete.
  unfold bind at 1, lift at 1. rewrite failure_success.
  cbn [truthy negb].
  unfold bind at 1, lift at 1.
  unfold bind at 1, lift at 1. rewrite failure_error.
  step_log. eauto.
Qed.

Lemma ordinary_loop_continues_after_failure_witness :
  exists line,
    forEach [Script.first; Script.second]
      (processQuest Script.refused (VStr "t") None) Script.listed
    = forEach [Script.second] (processQuest Script.refused (VStr "t") None)
        (after
           (snd (completeQuest Script.refused (VStr "t") (VStr "q1") None
                   (snd (log Script.refused ("Processing task: " +:+ ToString (VStr "Follow"))
                           "info" Script.listed))))
           [EConsole line]).
Proof.
  apply (ordinary_loop_continues_after_failure Script.refused (VStr "t") None Script.first
           [Script.second] Script.listed (VStr "Follow") (VStr "q1")
           "Unexpected response status"); reflexivity.
Defined.

(** ** The lines of a file *)

Lemma startsWith_char x c r :
  Str.startsWith (String c r) (String x EmptyString) = bool_decide (c = x).
Proof.
  cbn [Str.startsWith].
  case_decide; case_bool_decide; try done; try congruence.
  by destruct r.
Qed.

Lemma contains_snoc c cur a :
  Str.contains c (Str.snoc cur a) = Str.contains c cur || bool_decide (a = c).
Proof.
  induction cur as [|b cur IH]; cbn [Str.snoc Str.contains].
  - destruct (decide (a = c)); [by rewrite bool_decide_true|by rewrite bool_decide_false].
  - destruct (decide (b = c)); [done|]. exact IH.
Qed.

Lemma contains_app c s t :
  Str.contains c (s +:+ t) = Str.contains c s || Str.contains c t.
Proof.
  induction s as [|a s IH]; [done|].
  rewrite append_cons. cbn [Str.contains]. by case_decide.
Qed.

Lemma contains_remove c x s :
  Str.contains c (Str.remove x s) = Str.contains c s && negb (bool_decide (c = x)).
Proof.
  induction s as [|a s IH]; [done|].
  cbn [Str.remove Str.contains].
  destruct (decide (a = x)) as [->|Hax].
  - rewrite IH. destruct (decide (x = c)) as [->|Hxc]; [|done].
    rewrite bool_decide_true by done. cbn. by rewrite andb_false_r.
  - cbn [Str.contains]. destruct (decide (a = c)) as [->|Hac]; [|done].
    by rewrite bool_decide_false by done.
Qed.

Lemma remove_app c s t : Str.remove c (s +:+ t) = Str.remove c s +:+ Str.remove c t.
Proof.
  induction s as [|a s IH]; [done|].
  rewrite append_cons. cbn [Str.remove]. case_decide; [done|].
  by rewrite append_cons, IH.
Qed.

Lemma remove_absent c s : Str.contains c s = false -> Str.remove c s = s.
Proof.
  induction s as [|a s IH]; [done|].
  cbn [Str.contains Str.remove]. case_decide; [done|]. intros Hc. by rewrite IH.
Qed.

Lemma append_empty_l (t : string) : EmptyString +:+ t = t.
Proof. reflexivity. Qed.

Lemma append_assoc' (s t u : string) : (s +:+ t) +:+ u = s +:+ (t +:+ u).
Proof. induction s as [|a s IH]; [done|]. by rewrite !append_cons, IH. Qed.

(** Every character of a piece comes from the piece being read or from the
    text, and is not the separator in the second case. *)
Lemma split_go_pieces x s cur p c :
  p ∈ Str.split_go (String x EmptyString) s cur 0 ->
  Str.contains c p = true ->
  Str.contains c cur = true \/ (Str.contains c s = true /\ c <> x).
Proof.
  revert cur. induction s as [|a r IH]; intros cur Hp Hc.
  - cbn [Str.split_go] in Hp. apply list_elem_of_singleton in Hp as ->. by left.
  - cbn [Str.split_go] in Hp. rewrite startsWith_char in Hp.
    case_bool_decide as Hax.
    + subst a. cbn [Str.length Nat.sub] in Hp.
      apply elem_of_cons in Hp as [->|Hp]; [by left|].
      destruct (IH _ Hp Hc) as [H|[H Hne]]; [done|].
      right. split; [|done]. cbn [Str.contains]. by case_decide.
    + destruct (IH _ Hp Hc) as [H|[H Hne]].
      * rewrite contains_snoc in H. apply orb_true_iff in H as [H|H]; [by left|].
        apply bool_decide_eq_true in H. subst c.
        right. split; [|done]. cbn [Str.contains]. by rewrite decide_True.
      * right. split; [|done]. cbn [Str.contains]. by case_decide.
Qed.

(** X19. Whatever the file holds, the lines read from it ([data.txt],
    [wallet.txt], [proxy.txt]) are never empty and contain neither a carriage
    return nor a line feed: blank lines are dropped and do not count as an
    account, a wallet or a proxy. *)
Theorem lines_are_plain text : Forall (fun l => plainLine l = true) (lines text).
Proof.
  apply Forall_forall. intros l Hl.
  unfold lines in Hl. apply list_elem_of_In, filter_In in Hl as [Hl Hne].
  apply list_elem_of_In in Hl. unfold Str.split in Hl.
  unfold plainLine. rewrite Hne. cbn [andb].
  assert (Str.contains "013" l = false) as ->.
  { destruct (Str.contains "013" l) eqn:Hc; [|done].
    destruct (split_go_pieces _ _ _ _ _ Hl Hc) as [H|[H _]]; [done|].
    rewrite contains_remove in H. by rewrite bool_decide_true, andb_false_r in H. }
  destruct (Str.contains "010" l) eqn:Hc; [|done].
  by destruct (split_go_pieces _ _ _ _ _ Hl Hc) as [H|[_ H]].
Qed.

(** A line without the separator, followed by the separator, is one piece. *)
Lemma split_go_line x l rest cur :
  Str.contains x l = false ->
  Str.split_go (String x EmptyString) (l +:+ String x rest) cur 0
  = (cur +:+ l) :: Str.split_go (String x EmptyString) rest EmptyString 0.
Proof.
  revert cur. induction l as [|a l IH]; intros cur Hc.
  - rewrite append_empty_l. cbn [Str.split_go]. rewrite startsWith_char.
    rewrite bool_decide_true by done. by rewrite append_empty_r.
  - rewrite append_cons. cbn [Str.split_go]. rewrite startsWith_char.
    cbn [Str.contains] in Hc. case_decide; [done|].
    rewrite bool_decide_false by done.
    rewrite IH by done. by rewrite append_snoc.
Qed.

Lemma split_go_single x s cur :
  Str.contains x s = false ->
  Str.split_go (String x EmptyString) s cur 0 = [cur +:+ s].
Proof.
  revert cur. induction s as [|c r IH]; intros cur Hc.
  - cbn [Str.split_go]. by rewrite append_empty_r.
  - cbn [Str.split_go]. rewrite startsWith_char.
    cbn [Str.contains] in Hc. case_decide; [done|].
    rewrite bool_decide_false by done.
    rewrite IH by done. by rewrite append_snoc.
Qed.

Lemma plainLine_spec l :
  plainLine l = true ->
  Str.nonEmpty l = true /\ Str.contains "013" l = false /\ Str.contains "010" l = false.
Proof.
  unfold plainLine. intros H.
  apply andb_true_iff in H as [H H3]. apply andb_true_iff in H as [H1 H2].
  apply negb_true_iff in H2, H3. done.
Qed.

Lemma join_cons sep l l' r :
  Str.join sep (l :: l' :: r) = l +:+ sep +:+ Str.join sep (l' :: r).
Proof. reflexivity. Qed.

Lemma remove_join eol ls :
  lineEnding eol ->
  Forall (fun l => plainLine l = true) ls ->
  Str.remove "013" (Str.join eol ls) = Str.join (String "010" EmptyString) ls
  /\ Str.remove "013" (Str.join eol ls +:+ eol)
     = Str.join (String "010" EmptyString) ls +:+ String "010" EmptyString.
Proof.
  intros Heol Hls.
  assert (Str.remove "013" eol = String "010" EmptyString) as He.
  { by destruct Heol as [->| ->]. }
  assert (Str.remove "013" (Str.join eol ls) = Str.join (String "010" EmptyString) ls)
    as Hj.
  { induction Hls as [|l r Hl Hr IH]; [done|].
    apply plainLine_spec in Hl as (_ & Hcr & _).
    destruct r as [|l' r].
    - cbn [Str.join]. by apply remove_absent.
    - rewrite !join_cons, !remove_app, He, IH. by rewrite remove_absent. }
  split; [done|]. by rewrite remove_app, Hj, He.
Qed.

Lemma lines_of_joined ls tail :
  Forall (fun l => plainLine l = true) ls ->
  tail = EmptyString \/ tail = String "010" EmptyString ->
  List.filter Str.nonEmpty
    (Str.split_go (String "010" EmptyString)
       (Str.join (String "010" EmptyString) ls +:+ tail) EmptyString 0) = ls.
Proof.
  intros Hls Htail. induction Hls as [|l r Hl Hr IH].
  - by destruct Htail as [->| ->].
  - apply plainLine_spec in Hl as (Hne & _ & Hlf).
    destruct r as [|l' r].
    + cbn [Str.join]. destruct Htail as [->| ->].
      * rewrite append_empty_r, split_go_single by done.
        rewrite append_empty_l. cbn [List.filter]. by rewrite Hne.
      * rewrite split_go_line by done.
        rewrite append_empty_l. cbn [Str.split_go List.filter]. by rewrite Hne.
    + rewrite join_cons, !append_assoc', append_cons, append_empty_l.
      rewrite split_go_line by done.
      rewrite append_empty_l. cbn [List.filter]. rewrite Hne. f_equal. exact IH.
Qed.

(** X20. Reading back a file written one entry per line gives the entries:
    for entries that are not empty and hold no line break, joined by LF or by
    CR LF, with or without a line ending after the last one, [lines] returns
    exactly the entries, in their order. *)
Theorem lines_of_written_file eol ls :
  lineEnding eol ->
  Forall (fun l => plainLine l = true) ls ->
  lines (Str.join eol ls) = ls /\ lines (Str.join eol ls +:+ eol) = ls.
Proof.
  intros Heol Hls. unfold lines, Str.split.
  destruct (remove_join eol ls Heol Hls) as [-> ->].
  split.
  - rewrite <- (append_empty_r (Str.join _ ls)). apply lines_of_joined; auto.
  - apply lines_of_joined; auto.
Qed.

Lemma lines_of_written_file_witness :
  lines (Str.join (String "013" (String "010" EmptyString)) ["query_id=1"; "query_id=2"])
  = ["query_id=1"; "query_id=2"]
  /\ lines (Str.join (String "013" (String "010" EmptyString)) ["query_id=1"; "query_id=2"]
            +:+ String "013" (String "010" EmptyString))
     = ["query_id=1"; "query_id=2"].
Proof.
  apply (lines_of_written_file (String "013" (String "010" EmptyString))
           ["query_id=1"; "query_id=2"]).
  - by right.
  - repeat constructor.
Defined.

(** ** The token mapping and the files of the constructor *)

(** [saveToken] returns, with the token installed; it writes the file or a
    console line, and sends nothing. *)
Lemma saveToken_effect E userId token w :
  exists evs,
    saveToken E userId token w
    = (Ret tt,
       World (trace w ++ evs) (<[ToString userId := token]> (tokens w))
         (wallets w) (proxies w))
    /\ Forall (okEvent nothing) evs.
Proof.
  unfold saveToken, set_token, write_tokens.
  unfold bind at 1. unfold try_catch, bind at 1. cbn [trace tokens].
  destruct (writeFileSync E _ _ _) as [error|].
  - step_log. eexists. split; [reflexivity|]. by repeat constructor.
  - unfold emit at 1. step_log. rewrite after_after.
    eexists. split; [reflexivity|]. by repeat constructor.
Qed.




(** X23. When [data.txt] cannot be read, [validateWalletFile] throws, the
    rejection of [main] is caught at the top level, and the process exits
    with code 1 having written console lines only: no prompt is shown and no
    request is sent. *)
Theorem unreadable_data_file_exits E v cycles e :
  readFileSync E "data.txt" = Throws e ->
  exists w0 line,
    construct E v start = (Ret tt, w0)
    /\ validateWalletFile E v w0 = (Throw e, w0)
    /\ program E v cycles start = (Exit 1, after w0 [EConsole line])
    /\ quiet (after w0 [EConsole line]).
Proof.
  intros Hread.
  destruct (construct_quiet E v) as (w0 & Hc & Hq).
  assert (validateWalletFile E v w0 = (Throw e, w0)) as Hv.
  { unfold validateWalletFile, bind, read_file, of_answer. by rewrite Hread. }
  destruct (log_spec E (message e) "error" w0) as [line Hlog].
  exists w0, line. split; [done|]. split; [done|]. split; [|by apply quiet_after].
  unfold program. rewrite (bind_Ret _ _ _ _ _ Hc).
  unfold try_catch, main. unfold bind at 1. rewrite Hv.
  unfold bind. by rewrite Hlog.
Qed.

Lemma unreadable_data_file_exits_witness :
  exists w0 line,
    construct Script.agentless Proxy start = (Ret tt, w0)
    /\ validateWalletFile Script.agentless Proxy w0
       = (Throw (JsError "Error" "ENOENT: no such file or directory"), w0)
    /\ program Script.agentless Proxy 1 start = (Exit 1, after w0 [EConsole line])
    /\ quiet (after w0 [EConsole line]).
Proof.
  apply (unreadable_data_file_exits Script.agentless Proxy 1
           (JsError "Error" "ENOENT: no such file or directory")).
  reflexivity.
Defined.

(** ** The session of an account *)

Ltac read_value :=
  eapply ends_bind;
  [apply ends_lift; [first [apply rends_get_prop | apply rends_toString]|done]|];
  intros ? _.

Lemma ends_with_world {A} Q T (P : A -> Prop) R (f : world -> M A) :
  (forall w0, ends Q T P R (f w0)) -> ends Q T P R (fun w => f w w).
Proof. intros H w. apply (H w w). Qed.

Lemma ends_get_token Q T R userId : ends Q T anything R (get_token userId).
Proof.
  intros w. eexists _, _. split; [reflexivity|]. split; [apply continues_refl|done].
Qed.

Lemma ends_saveToken Q R E userId token :
  ends Q False anything R (saveToken E userId token).
Proof.
  intros w. destruct (saveToken_effect E userId token w) as (evs & -> & Hevs).
  eexists _, _. split; [reflexivity|]. split; [|done].
  split; [done|]. split; [done|]. split; [done|].
  exists evs. split; [done|].
  eapply Forall_impl; [exact Hevs|]. by intros [].
Qed.

Lemma ends_now Q T R E : ends Q T anything R (now E).
Proof.
  intros w. eexists _, _. split; [reflexivity|]. split; [apply continues_refl|done].
Qed.

Lemma rends_decodePayload E p : rends anything (decodePayload E p).
Proof. by destruct p. Qed.

Lemma rends_JSON_parse_or_throw E text : rends anything (JSON_parse_or_throw E text).
Proof. unfold JSON_parse_or_throw. by destruct (JSON_parse E text). Qed.

Lemma rends_formatExpiry E exp : rends anything (formatExpiry E exp).
Proof. by destruct exp. Qed.

Lemma ends_isExpired Q T E token : ends Q T anything anything (isExpired E token).
Proof.
  unfold isExpired. destruct token; try by apply ends_throw.
  eapply ends_bind; [apply ends_lift; [apply rends_decodePayload|done]|].
  intros decodedPayload _.
  eapply ends_try with (R := anything).
  - eapply ends_bind; [apply ends_lift; [apply rends_JSON_parse_or_throw|done]|].
    intros parsedPayload _.
    eapply ends_bind; [apply ends_now|]. intros t _.
    eapply ends_bind; [apply ends_lift; [apply rends_get_prop|done]|]. intros exp _.
    destruct (truthy exp).
    + eapply ends_bind; [apply ends_lift; [apply rends_formatExpiry|done]|].
      intros expirationDate _.
      eapply ends_bind; [apply ends_log|]. intros _ _.
      eapply ends_bind; [apply ends_log|]. intros _ _. by apply ends_ret.
    + eapply ends_bind; [apply ends_log|]. intros _ _. by apply ends_ret.
  - intros e _. eapply ends_bind; [apply ends_log|]. intros _ _. by apply ends_ret.
Qed.

Lemma ends_logBalance Q T E result : ends Q T anything anything (logBalance E result).
Proof.
  unfold logBalance. read_value. read_value. apply ends_log.
Qed.

Lemma ends_ensureWallet E wallet userToken walletAddress proxy :
  ends (sentAs (walletRequest userToken walletAddress)) True anything anything
    (ensureWallet E wallet userToken walletAddress proxy).
Proof.
  unfold ensureWallet. destruct (truthy wallet); [apply ends_log|].
  eapply ends_bind; [apply ends_log|]. intros _ _.
  eapply ends_bind.
  { eapply ends_adapt with (P' := anything); [apply ends_linkWallet|..]; done. }
  intros linkResult _. read_value. destruct (truthy _); [apply ends_log|].
  read_value. apply ends_log.
Qed.

Lemma ends_session E initData userId walletAddress proxy :
  ends (sessionTraffic initData) False anything anything
    (session E initData userId walletAddress proxy).
Proof.
  unfold session.
  eapply ends_bind; [apply ends_get_token|]. intros userToken _.
  eapply ends_bind with (P := anything).
  { destruct (truthy userToken); cbn [negb]; [apply ends_isExpired|by apply ends_ret]. }
  intros [] _.
  - eapply ends_bind; [apply ends_log|]. intros _ _.
    eapply ends_bind.
    { eapply ends_adapt with (P' := anything); [apply ends_authenticate|..]; try done.
      intros c ?. by left. }
    intros authResult _. read_value. destruct (truthy _).
    + read_value.
      eapply ends_bind; [apply ends_saveToken|]. intros _ _.
      eapply ends_bind; [apply ends_logBalance|]. intros _ _.
      read_value.
      eapply ends_bind.
      { eapply ends_adapt with (P' := anything); [apply ends_ensureWallet|..]; try done.
        intros c ?. right; right; eauto. }
      intros _ _. by apply ends_ret.
    + read_value. eapply ends_bind; [apply ends_log|]. intros _ _. by apply ends_ret.
  - eapply ends_bind; [apply ends_log|]. intros _ _.
    eapply ends_bind.
    { eapply ends_adapt with (P' := anything); [apply ends_getUserInfo|..]; try done.
      intros c ?. right; left; eauto. }
    intros userInfo _. read_value.
    eapply ends_bind with (P := anything); [|intros _ _; by apply ends_ret].
    destruct (truthy _).
    + eapply ends_bind; [apply ends_logBalance|]. intros _ _.
      read_value.
      eapply ends_adapt with (P' := anything); [apply ends_ensureWallet|..]; try done.
      intros c ?. right; right; eauto.
    + read_value. apply ends_log.
Qed.

Lemma ends_checkProxyIP E proxy :
  ends (fun c => exists a, c = ipRequest a) True anything anything (checkProxyIP E proxy).
Proof.
  unfold checkProxyIP. eapply ends_try with (R := anything).
  - eapply ends_bind with (P := anything).
    { destruct proxy; [apply ends_of_answer|by apply ends_throw]. }
    intros a _.
    eapply ends_bind; [apply ends_call_axios; by exists a|].
    intros response _. destruct (status response =? 200).
    + apply ends_lift; [apply rends_get_prop|done].
    + by apply ends_throw.
  - intros e _. by apply ends_throw.
Qed.

Lemma rends_styled E v style : rends anything (styled E v style).
Proof. by destruct v. Qed.

Lemma ends_banner E v i firstName proxy :
  ends (fun c => v = Proxy /\ exists a, c = ipRequest a) True anything anything
    (banner E v i firstName proxy).
Proof.
  unfold banner. destruct v.
  - eapply ends_bind; [apply ends_lift; [apply rends_styled|done]|]. intros name _.
    eapply ends_bind; [by apply ends_emit|]. intros _ _. by apply ends_ret.
  - eapply ends_try with (R := anything).
    + eapply ends_bind.
      { eapply ends_adapt with (P' := anything); [apply ends_checkProxyIP|..]; done. }
      intros proxyIP _.
      eapply ends_bind; [apply ends_lift; [apply rends_styled|done]|]. intros name _.
      eapply ends_bind; [apply ends_lift; [apply rends_styled|done]|]. intros ip _.
      eapply ends_bind; [by apply ends_emit|]. intros _ _. by apply ends_ret.
    + intros e _. eapply ends_bind; [apply ends_log|]. intros _ _. by apply ends_ret.
Qed.

Lemma rends_parseUser E initData : rends anything (parseUser E initData).
Proof.
  unfold parseUser. destruct (_ !! _); [|done].
  destruct (decodeURIComponent E _); [apply rends_JSON_parse_or_throw|done].
Qed.

Lemma ends_account E v (quests seasonal : bool) i initData :
  ends (accountTraffic v (quests = true) (seasonal = true) initData) False
    anything anything (account E v quests seasonal (i, initData)).
Proof.
  unfold account.
  eapply ends_bind; [apply ends_lift; [apply rends_parseUser|done]|]. intros userData _.
  read_value. read_value.
  apply ends_with_world
    with (f := fun w0 =>
                 let walletAddress := from_option VStr VUndefined (wallets w0 !! i) in
                 let proxy := match v with Plain => None | Proxy => proxies w0 !! i end in
                 _).
  intros w0. cbv zeta.
  generalize (from_option VStr VUndefined (wallets w0 !! i)).
  generalize (match v with Plain => None | Proxy => proxies w0 !! i end).
  intros proxy walletAddress.
  eapply ends_bind.
  { eapply ends_adapt with (P' := anything); [apply ends_banner|..]; try done.
    intros c ?. by left. }
  intros [] _; cbn [negb]; [|by apply ends_ret].
  eapply ends_bind.
  { eapply ends_adapt with (P' := anything); [apply ends_session|..]; try done.
    intros c ?. right; left; eauto. }
  intros [userToken|] _; [|by apply ends_ret].
  eapply ends_bind with (P := anything).
  { destruct quests; [|by apply ends_ret].
    eapply ends_bind; [apply ends_log|]. intros _ _.
    eapply ends_adapt with (P' := anything); [apply ends_processQuests|..]; try done.
    intros c ?. right; right; left; eauto. }
  intros _ _.
  eapply ends_bind with (P := anything).
  { destruct seasonal; [|by apply ends_ret].
    eapply ends_bind; [apply ends_log|]. intros _ _.
    eapply ends_adapt with (P' := anything); [apply ends_processChristmasQuests|..];
      try done.
    intros c ?. right; right; right; eauto. }
  intros _ _. apply ends_sleep.
Qed.

(** ** The whole run *)

Lemma ends_forEach_in {A} Q T R (body : A -> M unit) xs :
  (forall x, x ∈ xs -> ends Q T anything R (body x)) ->
  ends Q T anything R (forEach xs body).
Proof.
  induction xs as [|x xs IH]; intros Hbody; [by apply ends_ret|].
  cbn [forEach]. eapply ends_bind; [apply Hbody; by left|]. intros _ _.
  apply IH. intros y Hy. apply Hbody. by right.
Qed.

Lemma ends_countdown_from Q T R i : ends Q T anything R (countdown_from i).
Proof.
  induction i as [|i IH]; cbn [countdown_from].
  - eapply ends_bind; [by apply ends_emit|]. intros _ _.
    eapply ends_bind; [by apply ends_emit|]. intros _ _.
    eapply ends_bind; [apply ends_sleep|]. intros _ _. by apply ends_ret.
  - eapply ends_bind; [by apply ends_emit|]. intros _ _.
    eapply ends_bind; [by apply ends_emit|]. intros _ _.
    eapply ends_bind; [apply ends_sleep|]. intros _ _. exact IH.
Qed.

Lemma ends_countdown Q T R E seconds : ends Q T anything R (countdown E seconds).
Proof.
  unfold countdown. eapply ends_bind; [apply ends_countdown_from|]. intros _ _.
  apply ends_log.
Qed.

(** The run loop never returns: it is still running after the passes it was
    given, unless a pass threw. *)
Lemma forever_runs Q cycles (pass : M unit) :
  ends Q False anything anything pass ->
  forall w, exists r w',
    forever cycles pass w = (r, w') /\ continues Q False w w'
    /\ (r = Running \/ exists e, r = Throw e).
Proof.
  intros Hp. induction cycles as [|cycles IH]; intros w.
  - eexists _, _. split; [reflexivity|]. split; [apply continues_refl|by left].
  - cbn [forever]. unfold bind. destruct (Hp w) as (r & w1 & -> & Hc & Hr).
    destruct r as [[]|e| |]; try done.
    + destruct (IH w1) as (r2 & w2 & -> & Hc2 & Hr2).
      exists r2, w2. split; [done|]. split; [by eapply continues_trans|done].
    + exists (Throw e), w1. split; [done|]. split; [done|]. right. eauto.
Qed.

Lemma replies_app t1 t2 : replies (t1 ++ t2) = replies t1 ++ replies t2.
Proof. apply omap_app. Qed.

Lemma quiet_silent w : quiet w -> replies (trace w) = [] /\ requests (trace w) = [].
Proof.
  unfold quiet. induction (trace w) as [|e t IH]; intros Hq; [done|].
  destruct (Hq e) as [line ->]; [by left|].
  cbn. apply IH. intros e' He'. apply Hq. by right.
Qed.

Lemma accountTraffic_mono v (q q' s s' : Prop) initData c :
  (q -> q') -> (s -> s') ->
  accountTraffic v q s initData c -> accountTraffic v q' s' initData c.
Proof.
  intros Hq Hs [H|[H|[[H1 H2]|[H1 H2]]]].
  - by left.
  - right. by left.
  - right. right. left. auto.
  - right. right. right. auto.
Qed.

Lemma validateWalletFile_outcome E v w text :
  readFileSync E "data.txt" = Returns text ->
  validateWalletFile E v w = (Ret true, w)
  \/ exists line, validateWalletFile E v w = (Ret false, after w [EConsole line]).
Proof.
  intros Hread.
  unfold validateWalletFile, bind, read_file, of_answer, ret. rewrite Hread.
  destruct (bool_decide (List.length (wallets w) = List.length (lines text)));
    cbn [negb].
  - destruct v; [by left|].
    destruct (bool_decide (List.length (proxies w) = List.length (lines text)));
      cbn [negb]; [by left|].
    right. step_log. eauto.
  - right. step_log. eauto.
Qed.

Lemma main_unreadable E v cycles w e :
  readFileSync E "data.txt" = Throws e -> main E v cycles w = (Throw e, w).
Proof.
  intros Hread. unfold main, validateWalletFile, bind, read_file, of_answer.
  by rewrite Hread.
Qed.

(** [main], from a process that has shown no prompt yet. *)
Lemma main_runs E v cycles w text :
  readFileSync E "data.txt" = Returns text ->
  replies (trace w) = [] ->
  exists r w' (quests seasonal : bool),
    main E v cycles w = (r, w')
    /\ (r = Exit 1 \/ r = Running \/ exists e, r = Throw e)
    /\ continues
         (fun c => exists initData,
                     initData ∈ lines text
                     /\ accountTraffic v (quests = true) (seasonal = true) initData c)
         False w w'
    /\ (quests = true -> forall t, agreed 0 (trace w' ++ t))
    /\ (seasonal = true -> forall t, agreed 1 (trace w' ++ t)).
Proof.
  intros Hread Hrep. unfold main.
  destruct (validateWalletFile_outcome E v w text Hread) as [Hv|[line Hv]];
    rewrite (bind_Ret _ _ _ _ _ Hv); cbn [negb].
  2:{ exists (Exit 1), (after w [EConsole line]), false, false.
      split; [done|]. split; [by left|].
      split; [apply continues_after; by repeat constructor|]. done. }
  unfold bind at 1, read_file, of_answer. rewrite Hread. unfold ret at 1.
  unfold bind at 1. step_log.
  unfold bind at 1, askQuestion at 1, bind at 1, emit at 1, ret at 1.
  set (r1 := question E _ _).
  unfold bind at 1, askQuestion at 1, bind at 1, emit at 1, ret at 1.
  set (r2 := question E _ _).
  rewrite !after_after. cbn [app].
  set (quests := bool_decide (Str.toLowerCase r1 = "y")).
  set (seasonal := bool_decide (Str.toLowerCase r2 = "y")).
  set (w3 := after w _).
  set (Q := fun c => exists initData,
                       initData ∈ lines text
                       /\ accountTraffic v (quests = true) (seasonal = true) initData c).
  destruct (forever_runs Q cycles
              (bind (forEach (imap pair (lines text)) (account E v quests seasonal))
                 (fun _ => countdown E (Z.to_nat (1440 * 60)))))
    with (w := w3) as (r & w' & Hrun & Hc & Hr).
  { eapply ends_bind; [|intros _ _; apply ends_countdown].
    apply ends_forEach_in. intros [i initData] Hin.
    apply elem_of_lookup_imap in Hin as (j & y & Heq & Hy).
    injection Heq as -> ->.
    eapply ends_relax; [| |apply ends_account]; [|done].
    intros c Hc. exists y. split; [|done]. by eapply list_elem_of_lookup_2. }
  exists r, w', quests, seasonal.
  split; [exact Hrun|]. split; [tauto|]. split.
  { eapply continues_trans; [|exact Hc]. apply continues_after. by repeat constructor. }
  destruct Hc as (_ & _ & _ & evs & Htr & _).
  assert (forall t, replies (trace w' ++ t) = r1 :: r2 :: replies (evs ++ t)) as Hreplies.
  { intros t. rewrite Htr. subst w3. cbn [after trace].
    rewrite <- !app_assoc, replies_app, Hrep. reflexivity. }
  split.
  - intros Hq t. exists r1. rewrite Hreplies. split; [done|].
    by apply bool_decide_eq_true in Hq.
  - intros Hs t. exists r2. rewrite Hreplies. split; [done|].
    by apply bool_decide_eq_true in Hs.
Qed.

(** X24. The script never ends normally: started from the files and the
    network, whatever they hold, it exits with code 1 or is still running
    after the passes it was given.  Every request it sends is made for a line
    of [data.txt]: the proxy check (proxy script only), the authentication
    with that line as [data], a user or wallet request, or a request of a
    quest engine; and a quest engine is only used when its prompt, the first
    for the ordinary quests and the second for the seasonal ones, was
    answered [y] or [Y]. *)
Theorem program_exits_or_runs_on E v cycles :
  exists r w',
    program E v cycles start = (r, w')
    /\ (r = Exit 1 \/ r = Running)
    /\ forall c, c ∈ requests (trace w') ->
         exists text initData,
           readFileSync E "data.txt" = Returns text
           /\ initData ∈ lines text
           /\ accountTraffic v (agreed 0 (trace w')) (agreed 1 (trace w')) initData c.
Proof.
  destruct (construct_quiet E v) as (w0 & Hc & Hq).
  destruct (quiet_silent w0 Hq) as [Hrep Hreq].
  unfold program. rewrite (bind_Ret _ _ _ _ _ Hc). unfold try_catch.
  destruct (readFileSync E "data.txt") as [text|e] eqn:Hread.
  2:{ rewrite (main_unreadable E v cycles w0 e Hread).
      unfold bind. step_log. eexists _, _. split; [reflexivity|]. split; [by left|].
      intros c. cbn [after trace]. rewrite requests_app, Hreq. cbn.
      by rewrite elem_of_nil. }
  destruct (main_runs E v cycles w0 text Hread Hrep)
    as (r & w1 & quests & seasonal & Hmain & Hr & Hcont & Hquests & Hseasonal).
  rewrite Hmain.
  destruct (continues_requests _ _ _ _ Hcont) as (sent & Hsent & HQ).
  rewrite Hreq in Hsent. cbn [app] in Hsent.
  assert (forall t c, c ∈ requests (trace w1) ->
            exists text' initData,
              Returns text = Returns text' /\ initData ∈ lines text'
              /\ accountTraffic v (agreed 0 (trace w1 ++ t)) (agreed 1 (trace w1 ++ t))
                   initData c) as Hall.
  { intros t c Hin. rewrite Hsent in Hin.
    rewrite Forall_forall in HQ. destruct (HQ c Hin) as (initData & Hdata & Hacc).
    exists text, initData. split; [done|]. split; [done|].
    eapply accountTraffic_mono; [| |exact Hacc]; auto. }
  destruct Hr as [->|[->|[e ->]]].
  - eexists _, _. split; [reflexivity|]. split; [by left|].
    intros c Hin. specialize (Hall [] c Hin). by rewrite app_nil_r in Hall.
  - eexists _, _. split; [reflexivity|]. split; [by right|].
    intros c Hin. specialize (Hall [] c Hin). by rewrite app_nil_r in Hall.
  - unfold bind. step_log. eexists _, _. split; [reflexivity|]. split; [by left|].
    intros c. cbn [after trace]. rewrite requests_app. cbn. rewrite app_nil_r.
    apply Hall.
Qed.

(** ** The two branches of a session *)














(** ** The proxy check *)

Lemma checkProxyIP_effect E proxy w :
  exists r w',
    checkProxyIP E proxy w = (r, w')
    /\ (w' = w \/ exists a, w' = after w [EAxios (ipRequest a)]).
Proof.
  destruct (ends_checkProxyIP E proxy w) as (r & w' & Heq & _ & _).
  exists r, w'. split; [done|]. revert Heq.
  unfold checkProxyIP, try_catch. unfold bind at 1.
  destruct proxy as [p|]; [|unfold throw; intros [= <- <-]; by left].
  unfold of_answer.
  destruct (newHttpsProxyAgent E p) as [a|e]; [|unfold throw; intros [= <- <-]; by left].
  unfold ret at 1. unfold bind at 1, call_axios, bind, emit, of_answer.
  fold (ipRequest a).
  destruct (axios E _ (ipRequest a)) as [resp|e];
    [|unfold throw; intros [= <- <-]; right; eauto].
  unfold ret at 1. destruct (status resp =? 200).
  - unfold lift. destruct (get_prop (body resp) "ip");
      unfold throw; intros [= <- <-]; right; eauto.
  - unfold throw; intros [= <- <-]; right; eauto.
Qed.


(** X28. In the proxy script an account whose proxy check fails is skipped:
    the failure is logged and the body of the loop ends there, before the
    stored token is looked up; nothing is sent for the account but the
    request of the check. *)
Theorem account_skipped_when_proxy_check_fails
    E quests seasonal i initData w userData userId firstName e w1 :
  parseUser E initData = Ret userData ->
  get_prop userData "id" = Ret userId ->
  get_prop userData "first_name" = Ret firstName ->
  checkProxyIP E (proxies w !! i) w = (Throw e, w1) ->
  exists line,
    account E Proxy quests seasonal (i, initData) w = (Ret tt, after w1 [EConsole line])
    /\ tokens w1 = tokens w
    /\ (requests (trace w1) = requests (trace w)
        \/ exists a, requests (trace w1) = requests (trace w) ++ [ipRequest a]).
Proof.
  intros Huser Hid Hname Hcheck.
  destruct (log_spec E ("Lỗi proxy cho tài khoản " +:+ pretty (i + 1)%nat +:+ ": "
                        +:+ message e) "error" w1) as [line Hlog].
  exists line. split.
  - unfold account.
    rewrite (bind_Ret _ _ w userData w) by (unfold lift; by rewrite Huser).
    rewrite (bind_Ret _ _ w userId w) by (unfold lift; by rewrite Hid).
    rewrite (bind_Ret _ _ w firstName w) by (unfold lift; by rewrite Hname).
    cbv zeta. unfold bind at 1, banner, try_catch. unfold bind at 1.
    rewrite Hcheck. unfold bind at 1. rewrite Hlog. reflexivity.
  - destruct (checkProxyIP_effect E (proxies w !! i) w) as (r & w' & Heq & Hw').
    rewrite Hcheck in Heq. injection Heq as <- <-.
    destruct Hw' as [->|[a ->]]; [by split; [|left]|].
    split; [done|]. right. exists a. cbn [after trace]. by rewrite requests_app.
Qed.

Lemma account_skipped_when_proxy_check_fails_witness :
  exists line,
    account Script.signedIn Proxy true true (0%nat, "user={}") Script.proxied
    = (Ret tt,
       after (after Script.proxied [EAxios (ipRequest (HttpsProxyAgent "http://proxy1"))])
         [EConsole line])
    /\ tokens (after Script.proxied [EAxios (ipRequest (HttpsProxyAgent "http://proxy1"))])
       = tokens Script.proxied
    /\ (requests
          (trace (after Script.proxied
                    [EAxios (ipRequest (HttpsProxyAgent "http://proxy1"))]))
        = requests (trace Script.proxied)
        \/ exists a,
             requests
               (trace (after Script.proxied
                         [EAxios (ipRequest (HttpsProxyAgent "http://proxy1"))]))
             = requests (trace Script.proxied) ++ [ipRequest a]).
Proof.
  apply (account_skipped_when_proxy_check_fails Script.signedIn true true 0%nat
           "user={}" Script.proxied (VObj []) VUndefined VUndefined
           (JsError "Error"
              ("Lỗi khi kiểm tra IP của proxy: "
               +:+ "Không thể kiểm tra IP của proxy. Status code: 201"))).
  - reflexivity.
  - reflexivity.
  - reflexivity.
  - reflexivity.
Defined.

(** ** A line that cannot be parsed *)

Lemma forEach_throws_in {A} Q T (body : A -> M unit) xs x0 :
  (forall x, x ∈ xs -> ends Q T anything anything (body x)) ->
  x0 ∈ xs ->
  (forall w, exists e, body x0 w = (Throw e, w)) ->
  forall w, exists e w', forEach xs body w = (Throw e, w').
Proof.
  induction xs as [|x xs IH]; intros Hbody Hin Hthrows w.
  { by apply elem_of_nil in Hin. }
  cbn [forEach]. unfold bind.
  destruct (Hbody x (ltac:(by left)) w) as (r & w1 & Heq & _ & Hr).
  rewrite Heq. destruct r as [[]|e| |]; try done; [|eauto].
  apply elem_of_cons in Hin as [->|Hin].
  - destruct (Hthrows w) as [e He]. congruence.
  - apply IH; [|done|done]. intros y Hy. apply Hbody. by right.
Qed.

Lemma account_unparsed E v quests seasonal i initData e w :
  parseUser E initData = Throw e ->
  account E v quests seasonal (i, initData) w = (Throw e, w).
Proof. intros Hp. unfold account, bind, lift. by rewrite Hp. Qed.

(** X29. One line of [data.txt] that cannot be parsed (no [user=] part, a
    malformed escape, or a user that is not JSON) ends the whole run: the
    exception is thrown in the loop over the accounts, outside every [try],
    so the first pass never completes and the process exits with code 1,
    also for the accounts after that line. *)
Theorem unparsed_line_ends_run E v cycles text initData e :
  readFileSync E "data.txt" = Returns text ->
  initData ∈ lines text ->
  parseUser E initData = Throw e ->
  exists w', program E v (S cycles) start = (Exit 1, w').
Proof.
  intros Hread Hin Hparse.
  destruct (construct_quiet E v) as (w0 & Hc & _).
  unfold program. rewrite (bind_Ret _ _ _ _ _ Hc). unfold try_catch, main.
  destruct (validateWalletFile_outcome E v w0 text Hread) as [Hv|[line Hv]];
    rewrite (bind_Ret _ _ _ _ _ Hv); cbn [negb]; [|unfold process_exit; eauto].
  unfold bind at 1, read_file, of_answer. rewrite Hread. unfold ret at 1.
  unfold bind at 1. step_log.
  unfold bind at 1, askQuestion at 1, bind at 1, emit at 1, ret at 1.
  set (r1 := question E _ _).
  unfold bind at 1, askQuestion at 1, bind at 1, emit at 1, ret at 1.
  set (r2 := question E _ _).
  set (quests := bool_decide (Str.toLowerCase r1 = "y")).
  set (seasonal := bool_decide (Str.toLowerCase r2 = "y")).
  set (w3 := after _ _).
  cbn [forever]. unfold bind at 1. unfold bind at 1.
  apply list_elem_of_lookup_1 in Hin as [i Hi].
  destruct (forEach_throws_in anything False
              (account E v quests seasonal) (imap pair (lines text)) (i, initData))
    with (w := w3) as (e' & w4 & Hloop).
  { intros [j y] _. eapply ends_relax; [| |apply ends_account]; done. }
  { apply elem_of_lookup_imap. eauto. }
  { intros w. exists e. by apply account_unparsed. }
  rewrite Hloop. unfold bind. step_log. unfold process_exit. eauto.
Qed.

Lemma unparsed_line_ends_run_witness :
  exists w', program Script.proxyless Plain 1 start = (Exit 1, w').
Proof.
  apply (unparsed_line_ends_run Script.proxyless Plain 0
           ("query_id=1&user=%7B%7D" +:+ Script.newline) "query_id=1&user=%7B%7D"
           (SyntaxError "Unexpected token in JSON")).
  - reflexivity.
  - vm_compute. by left.
  - reflexivity.
Defined.
